(** * Similarity-Join-Analysis: a shallow embedding of [distribution.py]

    The script loads two movie tables, tallies the values of each candidate
    column, scores the overlap of the two value sets and ranks the columns.
    This file embeds the functions of [distribution.py] and proves the
    properties its specification states about them.

    Modelling decisions, shared by the whole file:

    - Python [int] is [Z]; [len(...)] is [Z.of_nat] of a size.
    - Python [float] values are the rationals they denote.  The true division
      [a / b] of two ints is the exact quotient rounded to binary64 by the
      interpreter; the rounding is the section variable [to_float], which
      answers [None] where CPython raises [OverflowError].
    - [Counter] and [dict] are [gmap string nat], [set] is [gset string].
    - A [DataFrame] holds text cells; a cell that is missing is absent from
      its row and renders as ["nan"] under [astype(str)].
    - [print] appends a structured message to the console; a file written
      through [csv.writer] is the list of records handed to [writerow].
    - [chardet.detect], [pandas.read_csv] and the byte rendering of a csv
      file are external libraries and enter as section variables. *)

From Stdlib Require Import ZArith QArith Lia String Ascii List Sorted Permutation.
From stdpp Require Import gmap strings list fin_maps fin_sets.

Local Open Scope string_scope.
Local Open Scope Z_scope.

(** ** Exceptions and results *)

Inductive exn : Type :=
  | FileNotFoundError (path : string)
  | KeyError (key : string)
  | ZeroDivisionError
  | OverflowError
  | UnicodeDecodeError
  | OtherException (msg : string)
  | ValueError (msg : string).

Inductive result (A : Type) : Type :=
  | Ok (a : A)
  | Raise (e : exn).

Arguments Ok {A} a.
Arguments Raise {A} e.

(** A Python number: [calculate_m_to_n_score] returns the int [0] on its
    guarded branch and a float otherwise. *)
Inductive pynum : Type :=
  | PyInt (n : Z)
  | PyFloat (x : Q).

Definition num_val (v : pynum) : Q :=
  match v with
  | PyInt n => inject_Z n
  | PyFloat x => x
  end.

(** ** Strings *)

(** [str.split(sep)] for a one-character separator: never empty, the pieces
    are the maximal runs between separators, nothing is trimmed. *)
Fixpoint split (sep : ascii) (s : string) : list string :=
  match s with
  | EmptyString => [EmptyString]
  | String c r =>
      if Ascii.eqb c sep then EmptyString :: split sep r
      else match split sep r with
           | piece :: pieces => String c piece :: pieces
           | [] => [String c EmptyString]
           end
  end.

(** [sep.join(pieces)] *)
Fixpoint join (sep : ascii) (pieces : list string) : string :=
  match pieces with
  | [] => EmptyString
  | [piece] => piece
  | piece :: rest => piece ++ String sep (join sep rest)
  end.

Fixpoint contains (c : ascii) (s : string) : bool :=
  match s with
  | EmptyString => false
  | String d r => Ascii.eqb d c || contains c r
  end.

Definition is_lower (c : ascii) : bool :=
  (Nat.leb 97 (nat_of_ascii c) && Nat.leb (nat_of_ascii c) 122)%bool.
Definition is_upper (c : ascii) : bool :=
  (Nat.leb 65 (nat_of_ascii c) && Nat.leb (nat_of_ascii c) 90)%bool.
Definition upper (c : ascii) : ascii :=
  if is_lower c then ascii_of_nat (nat_of_ascii c - 32) else c.
Definition lower (c : ascii) : ascii :=
  if is_upper c then ascii_of_nat (nat_of_ascii c + 32) else c.

Fixpoint lower_all (s : string) : string :=
  match s with
  | EmptyString => EmptyString
  | String c r => String (lower c) (lower_all r)
  end.

(** [str.capitalize()] on ASCII text: first character upper-cased, the rest
    lower-cased; other characters are kept. *)
Definition capitalize (s : string) : string :=
  match s with
  | EmptyString => EmptyString
  | String c r => String (upper c) (lower_all r)
  end.

(** ** Tables and tallies *)

(** A table: its column labels and its rows.  A row maps a column label to
    the text of the cell; a missing cell (NaN) has no entry. *)
Record DataFrame : Type := mkDataFrame {
  columns : list string;
  rows : list (gmap string string)
}.

(** [column in df.columns] *)
Definition has_column (df : DataFrame) (column : string) : bool :=
  bool_decide (column ∈ columns df).

(** [df[column]]: the cells of the column, top to bottom *)
Definition getitem (df : DataFrame) (column : string)
  : result (list (option string)) :=
  if has_column df column
  then Ok (map (fun r : gmap string string => r !! column) (rows df))
  else Raise (KeyError column).

(** [.astype(str)] on one cell *)
Definition astype_str (cell : option string) : string :=
  match cell with
  | Some text => text
  | None => "nan"
  end.

(** [.str.split(',')] over a series *)
Definition str_split (series : list string) : list (list string) :=
  map (split ",") series.

(** [.explode()]: every item of every list becomes an entry of its own.
    (An empty list would become one NaN entry; [split] never returns one.) *)
Definition explode (series : list (list string)) : list string :=
  concat series.

(** [Counter(iterable)] *)
Definition Counter_add (tally : gmap string nat) (value : string)
  : gmap string nat :=
  <[value := S (default 0%nat (tally !! value))]> tally.

Definition Counter (values : list string) : gmap string nat :=
  fold_left Counter_add values ∅.

(** [counts.get(value, 0)] *)
Definition get0 (counts : gmap string nat) (value : string) : Z :=
  Z.of_nat (default 0%nat (counts !! value)).

(** [len(counts)] *)
Definition len (counts : gmap string nat) : Z := Z.of_nat (size counts).

(** [len(set)] *)
Definition len_set (X : gset string) : Z := Z.of_nat (size X).

(** How often [value] stands in a list: what a tally is measured against. *)
Definition occurrences (value : string) (values : list string) : nat :=
  count_occ String.string_dec values value.

Definition count_occurrences (df : DataFrame) (column : string)
  : result (gmap string nat) :=
  match getitem df column with
  | Ok series => Ok (Counter (explode (str_split (map astype_str series))))
  | Raise e => Raise e
  end.

(** ** The world: files and console *)

(** A field handed to [csv.writer]: text or an int. *)
Inductive field : Type :=
  | FStr (s : string)
  | FInt (n : Z).

(** A file holds raw bytes, or the records written through [csv.writer]. *)
Inductive file : Type :=
  | Binary (data : list Byte.byte)
  | CsvFile (records : list (list field)).

(** One constructor per [print] statement of the script, carrying the
    interpolated values. *)
Inductive message : Type :=
  | MsgReadOk (encoding : option string)
  | MsgReadDecodeFailed (encoding : option string)
  | MsgReadUnexpected (encoding : option string) (err : exn)
  | MsgAnalyzing (column : string)
  | MsgCountsWritten (column filename : string)
  | MsgUniqueImdb (column : string) (n : Z)
  | MsgUniqueOmdb (column : string) (n : Z)
  | MsgUniqueTotal (column : string) (n : Z)
  | MsgScore (score : pynum)
  | MsgColumnNotFound (column : string)
  | MsgRankingHeader
  | MsgRanked (column : string) (imdb_unique omdb_unique total_unique : Z)
              (score : pynum)
  | MsgRowsImdb (n : Z)
  | MsgRowsOmdb (n : Z)
  | MsgDone.

Record World : Type := mkWorld {
  files : gmap string file;
  console : list message
}.

(** Computations that may raise and that read and write the world. *)
Definition M (A : Type) : Type := World -> result A * World.

Definition ret {A} (a : A) : M A := fun w => (Ok a, w).

Definition bind {A B} (c : M A) (k : A -> M B) : M B :=
  fun w =>
    match c w with
    | (Ok a, w') => k a w'
    | (Raise e, w') => (Raise e, w')
    end.

Definition raise {A} (e : exn) : M A := fun w => (Raise e, w).

Definition lift {A} (r : result A) : M A := fun w => (r, w).

Notation "'do' x <- c ; k" := (bind c (fun x => k))
  (at level 10, x name, c at level 100, k at level 200).
Notation "'do' ' pat <- c ; k" :=
  (bind c (fun x => match x with pat => k end))
  (at level 10, pat pattern, c at level 100, k at level 200).
Notation "c ;;; k" := (bind c (fun _ => k))
  (at level 100, k at level 200, right associativity).

Definition print (m : message) : M unit :=
  fun w => (Ok tt, mkWorld (files w) (console w ++ [m])).

(** [for x in xs: body x] *)
Fixpoint for_each {A} (xs : list A) (body : A -> M unit) : M unit :=
  match xs with
  | [] => ret tt
  | x :: rest => body x ;;; for_each rest body
  end.

(** [open(filename, 'w')]: the file is created or truncated. *)
Definition open_w (filename : string) : M unit :=
  fun w => (Ok tt, mkWorld (<[filename := CsvFile []]> (files w)) (console w)).

(** [writer.writerow(record)] on the writer of [filename] *)
Definition writerow (filename : string) (record : list field) : M unit :=
  fun w =>
    let append f :=
      match f with
      | CsvFile records => CsvFile (records ++ [record])
      | Binary data => Binary data
      end in
    (Ok tt, mkWorld (alter append filename (files w)) (console w)).

(** ** Report writer *)

(** The header record and the record of one value, as [writerow] gets them. *)
Definition header_record (column_name : string) : list field :=
  [FStr column_name; FStr "IMDB Count"; FStr "OMDB Count"].

Definition value_record (imdb_counts omdb_counts : gmap string nat)
    (value : string) : list field :=
  [FStr value; FInt (get0 imdb_counts value); FInt (get0 omdb_counts value)].

Definition write_counts_to_csv (imdb_counts omdb_counts : gmap string nat)
    (filename column_name : string) : M unit :=
  open_w filename ;;;
  writerow filename [FStr column_name; FStr "IMDB Count"; FStr "OMDB Count"] ;;;
  let all_values := dom imdb_counts ∪ dom omdb_counts in
  for_each (elements all_values) (fun value =>
    let imdb_count := get0 imdb_counts value in
    let omdb_count := get0 omdb_counts value in
    writerow filename [FStr value; FInt imdb_count; FInt omdb_count]).

(** ** Sample data

    Two small tables in the shape of the specification's scenarios, a world
    that holds the two input files, and stand-ins for the external
    libraries. *)

Definition sample_imdb : DataFrame :=
  mkDataFrame ["genre"; "year"]
    [ {[ "genre" := "Drama"; "year" := "1999" ]};
      {[ "genre" := "Comedy"; "year" := "2001" ]} ].

Definition sample_omdb : DataFrame :=
  mkDataFrame ["Genre"; "Year"]
    [ {[ "Genre" := "Drama,Horror"; "Year" := "1999" ]};
      {[ "Genre" := "Horror"; "Year" := "2001" ]} ].

(** One cell with two values and one missing cell. *)
Definition sample_cells : DataFrame :=
  mkDataFrame ["genre"] [ {[ "genre" := "Action,Drama" ]}; ∅ ].

Definition sample_world : World :=
  mkWorld {[ "imdb.csv" := Binary [Byte.x74; Byte.xe9];
             "omdb.csv" := Binary [Byte.x54; Byte.xe9] ]} [].

(** A rounding that keeps every quotient as it is. *)
Definition exact_float (q : Q) : option Q := Some q.

(** A rounding under which every division overflows. *)
Definition no_float (q : Q) : option Q := None.

Definition sample_detect (raw_data : list Byte.byte) : option string :=
  Some "ascii".

(** A parser that cannot decode the sample bytes as ascii or utf-8. *)
Definition sample_read_csv (data : list Byte.byte) (encoding : option string)
  : result DataFrame :=
  match encoding with
  | Some "iso-8859-1" | Some "windows-1252" | Some "latin1" =>
      match data with
      | Byte.x74 :: _ => Ok sample_imdb
      | _ => Ok sample_omdb
      end
  | _ => Raise UnicodeDecodeError
  end.

Definition sample_csv_bytes (records : list (list field)) : list Byte.byte :=
  [].

(** A world in which the second input file is missing. *)
Definition sample_world_imdb_only : World :=
  mkWorld {[ "imdb.csv" := Binary [Byte.x74; Byte.xe9] ]} [].

Section Pipeline.

(** binary64 rounding of an exact quotient; [None] is [OverflowError] *)
Variable to_float : Q -> option Q.

(** ** Overlap scorer *)

(** [a / b] on two ints *)
Definition true_div (a b : Z) : result pynum :=
  if b =? 0 then Raise ZeroDivisionError
  else match to_float (inject_Z a / inject_Z b)%Q with
       | Some x => Ok (PyFloat x)
       | None => Raise OverflowError
       end.

Definition calculate_m_to_n_score (imdb_unique omdb_unique total_unique : Z)
  : result pynum :=
  let overlap := imdb_unique + omdb_unique - total_unique in
  let max_overlap := Z.min imdb_unique omdb_unique in
  if max_overlap =? 0 then Ok (PyInt 0)
  else
    match true_div overlap max_overlap with
    | Ok score => Ok score
    | Raise e => Raise e
    end.

(** ** Encoding-robust reader *)

(** [chardet.detect(raw_data)['encoding']]; [None] when nothing is detected *)
Variable chardet_detect : list Byte.byte -> option string.

(** [pd.read_csv] on the bytes of a file under an encoding ([None] is the
    library default), with the parser options of the script. *)
Variable pd_read_csv : list Byte.byte -> option string -> result DataFrame.

(** the bytes of a file written through [csv.writer] *)
Variable csv_bytes : list (list field) -> list Byte.byte.

Definition file_bytes (f : file) : list Byte.byte :=
  match f with
  | Binary data => data
  | CsvFile records => csv_bytes records
  end.

(** [open(file_path, 'rb')] followed by [file.read(n)] *)
Definition read_rb (file_path : string) (n : nat) : M (list Byte.byte) :=
  fun w =>
    match files w !! file_path with
    | Some f => (Ok (take n (file_bytes f)), w)
    | None => (Raise (FileNotFoundError file_path), w)
    end.

Definition detect_encoding (file_path : string) : M (option string) :=
  do raw_data <- read_rb file_path (Z.to_nat 10000);
  ret (chardet_detect raw_data).

(** [pd.read_csv(file_path, encoding=encoding, ...)] *)
Definition read_csv (file_path : string) (encoding : option string)
  : M DataFrame :=
  fun w =>
    match files w !! file_path with
    | Some f => (pd_read_csv (file_bytes f) encoding, w)
    | None => (Raise (FileNotFoundError file_path), w)
    end.

(** The error raised once every encoding has been tried. *)
Definition no_encoding_error : exn :=
  ValueError "Failed to read the CSV file with any of the attempted encodings.".

(** The [for encoding in encodings_to_try] loop with its [try]/[except]
    and the [raise] after it. *)
Fixpoint try_encodings (file_path : string)
    (encodings_to_try : list (option string)) : M DataFrame :=
  match encodings_to_try with
  | [] => raise no_encoding_error
  | encoding :: rest =>
      fun w =>
        match read_csv file_path encoding w with
        | (Ok df, w') => (print (MsgReadOk encoding) ;;; ret df) w'
        | (Raise UnicodeDecodeError, w') =>
            (print (MsgReadDecodeFailed encoding) ;;;
             try_encodings file_path rest) w'
        | (Raise e, w') =>
            (print (MsgReadUnexpected encoding e) ;;;
             try_encodings file_path rest) w'
        end
  end.

(** [l.insert(0, x)] *)
Definition insert0 {A} (x : A) (l : list A) : list A := x :: l.

Definition read_csv_with_encoding (file_path : string) : M DataFrame :=
  let encodings_to_try :=
    [Some "utf-8"; Some "iso-8859-1"; Some "windows-1252"; Some "latin1"] in
  do detected_encoding <- detect_encoding file_path;
  let encodings_to_try := insert0 detected_encoding encodings_to_try in
  try_encodings file_path encodings_to_try.

(** ** Column analyzer *)

Definition analyze_column (imdb_df omdb_df : DataFrame) (column : string)
  : M (Z * Z * Z * pynum) :=
  print (MsgAnalyzing column) ;;;
  let imdb_column := column in
  let omdb_column := capitalize column in
  if (has_column imdb_df imdb_column && has_column omdb_df omdb_column)%bool
  then
    do imdb_counts <- lift (count_occurrences imdb_df imdb_column);
    do omdb_counts <- lift (count_occurrences omdb_df omdb_column);
    let output_filename := column ++ "_counts.csv" in
    write_counts_to_csv imdb_counts omdb_counts output_filename
      (capitalize column) ;;;
    print (MsgCountsWritten column output_filename) ;;;
    let imdb_unique := len imdb_counts in
    let omdb_unique := len omdb_counts in
    let total_unique := len_set (dom imdb_counts ∪ dom omdb_counts) in
    print (MsgUniqueImdb column imdb_unique) ;;;
    print (MsgUniqueOmdb column omdb_unique) ;;;
    print (MsgUniqueTotal column total_unique) ;;;
    do m_to_n_score <-
      lift (calculate_m_to_n_score imdb_unique omdb_unique total_unique);
    print (MsgScore m_to_n_score) ;;;
    ret (imdb_unique, omdb_unique, total_unique, m_to_n_score)
  else
    print (MsgColumnNotFound column) ;;;
    ret (0, 0, 0, PyInt 0).

(** ** Ranking driver *)

(** An entry of [join_candidates]:
    [(column, imdb_unique, omdb_unique, total_unique, m_to_n_score)]. *)
Definition candidate : Type := string * Z * Z * Z * pynum.

Definition cand_column (x : candidate) : string :=
  let '(column, _, _, _, _) := x in column.
Definition cand_imdb_unique (x : candidate) : Z :=
  let '(_, imdb_unique, _, _, _) := x in imdb_unique.
Definition cand_omdb_unique (x : candidate) : Z :=
  let '(_, _, omdb_unique, _, _) := x in omdb_unique.
(** the sort key [lambda x: x[4]] *)
Definition cand_score (x : candidate) : pynum :=
  let '(_, _, _, _, m_to_n_score) := x in m_to_n_score.

Definition potential_join_columns : list string :=
  ["title"; "director"; "cast"; "writer"; "genre"; "year"].

(** The [for column in ...] loop that fills [join_candidates]. *)
Fixpoint collect (imdb_df omdb_df : DataFrame) (cols : list string)
    (join_candidates : list candidate) : M (list candidate) :=
  match cols with
  | [] => ret join_candidates
  | column :: rest =>
      do '(imdb_unique, omdb_unique, total_unique, m_to_n_score) <-
        analyze_column imdb_df omdb_df column;
      if ((1 <? imdb_unique) && (1 <? omdb_unique))%bool
      then collect imdb_df omdb_df rest
             (join_candidates ++
              [(column, imdb_unique, omdb_unique, total_unique, m_to_n_score)])
      else collect imdb_df omdb_df rest join_candidates
  end.

(** [a < b] on Python numbers *)
Definition py_lt (a b : pynum) : bool :=
  negb (Qle_bool (num_val b) (num_val a)).

(** [list.sort(key=lambda x: x[4], reverse=True)]: the stable sort by
    descending key.  An entry moves behind another one only when its key is
    strictly smaller, so entries with equal keys keep their order. *)
Fixpoint insert_desc (x : candidate) (sorted : list candidate)
  : list candidate :=
  match sorted with
  | [] => [x]
  | y :: rest =>
      if py_lt (cand_score x) (cand_score y) then y :: insert_desc x rest
      else x :: y :: rest
  end.

Definition sort_desc (l : list candidate) : list candidate :=
  fold_right insert_desc [] l.

(** Lines 101 to 112 of the script, for any list of candidate columns. *)
Definition rank (imdb_df omdb_df : DataFrame) (cols : list string)
  : M (list candidate) :=
  do join_candidates <- collect imdb_df omdb_df cols [];
  print MsgRankingHeader ;;;
  let join_candidates := sort_desc join_candidates in
  for_each join_candidates
    (fun '(column, imdb_unique, omdb_unique, total_unique, m_to_n_score) =>
       print (MsgRanked column imdb_unique omdb_unique total_unique
                m_to_n_score)) ;;;
  ret join_candidates.

Definition count_rows (df : DataFrame) : Z := Z.of_nat (length (rows df)).

(** The script, top to bottom; it answers the final [join_candidates]. *)
Definition main : M (list candidate) :=
  do imdb_df <- read_csv_with_encoding "imdb.csv";
  do omdb_df <- read_csv_with_encoding "omdb.csv";
  do join_candidates <- rank imdb_df omdb_df potential_join_columns;
  let imdb_rows := count_rows imdb_df in
  let omdb_rows := count_rows omdb_df in
  print (MsgRowsImdb imdb_rows) ;;;
  print (MsgRowsOmdb omdb_rows) ;;;
  print MsgDone ;;;
  ret join_candidates.

(** ** Vocabulary of the statements *)

(** An attempt fails when [pd.read_csv] raises, whatever it raises. *)
Definition attempt_fails (data : list Byte.byte) (encoding : option string)
  : Prop :=
  exists e, pd_read_csv data encoding = Raise e.

(** An entry reports the analysis of its column: the two tallies exist, the
    three counts are their lengths and the score is the scorer's answer. *)
Definition analysed (imdb_df omdb_df : DataFrame) (x : candidate) : Prop :=
  exists imdb_counts omdb_counts : gmap string nat,
    count_occurrences imdb_df (cand_column x) = Ok imdb_counts
    /\ count_occurrences omdb_df (capitalize (cand_column x)) = Ok omdb_counts
    /\ x = (cand_column x, len imdb_counts, len omdb_counts,
            len_set (dom imdb_counts ∪ dom omdb_counts), cand_score x)
    /\ calculate_m_to_n_score (len imdb_counts) (len omdb_counts)
         (len_set (dom imdb_counts ∪ dom omdb_counts)) = Ok (cand_score x).

(** More than one distinct value on both sides. *)
Definition informative (x : candidate) : Prop :=
  1 < cand_imdb_unique x /\ 1 < cand_omdb_unique x.

(** [x] may stand right before [y] in a list sorted by descending score. *)
Definition score_ge (x y : candidate) : Prop :=
  (num_val (cand_score y) <= num_val (cand_score x))%Q.

(** The line the reader prints for one attempt. *)
Definition attempt_message (data : list Byte.byte) (encoding : option string)
  : message :=
  match pd_read_csv data encoding with
  | Ok _ => MsgReadOk encoding
  | Raise UnicodeDecodeError => MsgReadDecodeFailed encoding
  | Raise e => MsgReadUnexpected encoding e
  end.

(** The candidates of the reader for a file with these bytes. *)
Definition candidate_encodings (data : list Byte.byte)
  : list (option string) :=
  [chardet_detect (take (Z.to_nat 10000) data); Some "utf-8";
   Some "iso-8859-1"; Some "windows-1252"; Some "latin1"].

(** The number of separators in a text. *)
Fixpoint count_sep (sep : ascii) (s : string) : nat :=
  match s with
  | EmptyString => 0%nat
  | String c r => ((if Ascii.eqb c sep then 1 else 0) + count_sep sep r)%nat
  end.

(** [sum(counts.values())] *)
Definition tally_total (counts : gmap string nat) : nat :=
  map_fold (fun (_ : string) (n acc : nat) => (n + acc)%nat) 0%nat counts.

(** The entries of a list whose score equals [q]. *)
Definition with_score (q : Q) (l : list candidate) : list candidate :=
  List.filter (fun x => Qeq_bool (num_val (cand_score x)) q) l.

(** The name of the report file of a column. *)
Definition report_name (column : string) : string := column ++ "_counts.csv".

(** * Properties *)

(** ** Overlap scorer *)

Lemma quotient_in_unit (o m : Z) :
  0 < m -> 0 <= o <= m ->
  (0 <= inject_Z o / inject_Z m)%Q /\ (inject_Z o / inject_Z m <= 1)%Q.
Proof.
  intros Hm [Hlo Hhi].
  assert (Hpos : (0 < inject_Z m)%Q) by (change 0%Q with (inject_Z 0); rewrite <- Zlt_Qlt; exact Hm).
  split.
  - apply Qle_shift_div_l; [exact Hpos|].
    rewrite Qmult_0_l. change 0%Q with (inject_Z 0). rewrite <- Zle_Qle. exact Hlo.
  - apply Qle_shift_div_r; [exact Hpos|].
    rewrite Qmult_1_l. rewrite <- Zle_Qle. exact Hhi.
Qed.

Lemma quotient_one (m : Z) : m <> 0 -> (inject_Z m / inject_Z m == 1)%Q.
Proof.
  intros Hm. unfold Qdiv. apply Qmult_inv_r.
  intros H. apply Hm. unfold Qeq in H. simpl in H. lia.
Qed.

(** Inclusion and exclusion on the three lengths the analyzer passes. *)
Lemma overlap_bounds (A B : gset string) :
  0 <= len_set A + len_set B - len_set (A ∪ B)
    <= Z.min (len_set A) (len_set B).
Proof.
  unfold len_set.
  pose proof (size_union_alt A B) as Hu.
  pose proof (subseteq_size (B ∖ A) B (subseteq_difference_l B A B (reflexivity B))).
  pose proof (subseteq_size A (A ∪ B) (union_subseteq_l A B)).
  pose proof (subseteq_size B (A ∪ B) (union_subseteq_r A B)).
  lia.
Qed.

Lemma overlap_subset (A B : gset string) :
  A ⊆ B ->
  len_set A + len_set B - len_set (A ∪ B) = len_set A /\
  Z.min (len_set A) (len_set B) = len_set A.
Proof.
  intros Hsub. unfold len_set.
  rewrite (subseteq_union_1_L A B Hsub). pose proof (subseteq_size A B Hsub). lia.
Qed.

Lemma len_set_pos (A : gset string) : A <> ∅ -> 0 < len_set A.
Proof.
  intros HA. unfold len_set.
  assert (size A <> 0%nat).
  { intros H0. apply HA. apply leibniz_equiv, size_empty_iff. exact H0. }
  lia.
Qed.

Lemma len_set_union_comm (A B : gset string) :
  len_set (B ∪ A) = len_set (A ∪ B).
Proof. unfold len_set. by rewrite (comm_L (∪) B A). Qed.

Lemma score_guard (a b u : Z) :
  Z.min a b = 0 -> calculate_m_to_n_score a b u = Ok (PyInt 0).
Proof. intros Hmin. unfold calculate_m_to_n_score. rewrite Hmin. reflexivity. Qed.

Lemma score_divides (a b u : Z) :
  Z.min a b <> 0 ->
  calculate_m_to_n_score a b u =
    match to_float (inject_Z (a + b - u) / inject_Z (Z.min a b))%Q with
    | Some x => Ok (PyFloat x)
    | None => Raise OverflowError
    end.
Proof.
  intros Hmin. unfold calculate_m_to_n_score, true_div.
  destruct (Z.eqb_spec (Z.min a b) 0) as [H0|_]; [contradiction|].
  destruct (to_float _); reflexivity.
Qed.

(** ** Facts about binary64 rounding used by the scorer *)

(** 0 and 1 are binary64 values and rounding to nearest is monotone: a
    quotient inside the unit interval rounds inside it, and 1 rounds to 1. *)
Hypothesis to_float_unit :
  forall q : Q, (0 <= q)%Q -> (q <= 1)%Q ->
    exists x, to_float q = Some x /\ (0 <= x)%Q /\ (x <= 1)%Q.
Hypothesis to_float_one :
  forall q : Q, (q == 1)%Q -> exists x, to_float q = Some x /\ (x == 1)%Q.

(** A quotient of an overlap that lies between 0 and the smaller count. *)
Lemma score_of_bounded_overlap (a b u : Z) :
  0 <= a + b - u <= Z.min a b ->
  exists score,
    calculate_m_to_n_score a b u = Ok score
    /\ (0 <= num_val score)%Q /\ (num_val score <= 1)%Q.
Proof.
  intros Hb.
  destruct (Z.eq_dec (Z.min a b) 0) as [H0|Hne].
  - exists (PyInt 0). rewrite score_guard by exact H0.
    split; [reflexivity|]. simpl. split; discriminate.
  - rewrite score_divides by exact Hne.
    assert (Hm : 0 < Z.min a b) by lia.
    destruct (quotient_in_unit _ _ Hm Hb) as [Hlo Hhi].
    destruct (to_float_unit _ Hlo Hhi) as (x & Hx & Hx0 & Hx1).
    exists (PyFloat x). rewrite Hx. auto.
Qed.

(** C1. For all finite string sets [A] and [B], the scorer called with the
    lengths of [A], of [B] and of their union returns a score, and the score
    lies in the closed interval from 0 to 1. *)
Theorem score_in_unit_interval (A B : gset string) :
  exists score,
    calculate_m_to_n_score (len_set A) (len_set B) (len_set (A ∪ B)) = Ok score
    /\ (0 <= num_val score)%Q /\ (num_val score <= 1)%Q.
Proof.
  apply score_of_bounded_overlap.
  unfold len_set.
  pose proof (size_union_alt A B) as Hunion.
  pose proof (subseteq_size (B ∖ A) B
                (subseteq_difference_l B A B (reflexivity B))) as Hdiff.
  pose proof (subseteq_size A (A ∪ B) (union_subseteq_l A B)) as HA.
  pose proof (subseteq_size B (A ∪ B) (union_subseteq_r A B)) as HB.
  lia.
Qed.

(** C2 (amended). When both key sets are non-empty and one of them is
    contained in the other, the scorer returns the float 1.0. *)
Theorem score_one_on_containment (A B : gset string) :
  A <> ∅ -> B <> ∅ -> A ⊆ B \/ B ⊆ A ->
  exists x,
    calculate_m_to_n_score (len_set A) (len_set B) (len_set (A ∪ B))
      = Ok (PyFloat x)
    /\ (x == 1)%Q.
Proof.
  intros HA HB Hsub.
  pose proof (len_set_pos A HA) as HpA. pose proof (len_set_pos B HB) as HpB.
  assert (Hne : Z.min (len_set A) (len_set B) <> 0) by lia.
  rewrite score_divides by exact Hne.
  assert (Ho : len_set A + len_set B - len_set (A ∪ B)
               = Z.min (len_set A) (len_set B)).
  { destruct Hsub as [Hsub|Hsub].
    - destruct (overlap_subset A B Hsub) as [-> ->]. reflexivity.
    - destruct (overlap_subset B A Hsub) as [Ho Hm].
      rewrite len_set_union_comm in Ho. lia. }
  rewrite Ho.
  destruct (to_float_one _ (quotient_one _ Hne)) as (x & Hx & Hx1).
  exists x. rewrite Hx. auto.
Qed.

(** C3. Whenever the smaller of the two distinct counts is 0, the scorer
    returns the int 0 without dividing: the answer is the same whatever the
    division would do, so the function is total there. *)
Theorem score_zero_when_min_zero (imdb_unique omdb_unique total_unique : Z) :
  Z.min imdb_unique omdb_unique = 0 ->
  calculate_m_to_n_score imdb_unique omdb_unique total_unique = Ok (PyInt 0)
  /\ true_div (imdb_unique + omdb_unique - total_unique)
        (Z.min imdb_unique omdb_unique) = Raise ZeroDivisionError.
Proof.
  intros Hmin. split; [by apply score_guard|].
  unfold true_div. by rewrite Hmin.
Qed.

(** An empty tally on either side is the main instance of the guard. *)
Lemma score_zero_on_empty_tally (A B : gset string) :
  A = ∅ \/ B = ∅ ->
  calculate_m_to_n_score (len_set A) (len_set B) (len_set (A ∪ B))
    = Ok (PyInt 0).
Proof.
  intros H. apply score_guard. unfold len_set.
  destruct H as [-> | ->]; rewrite size_empty; lia.
Qed.

(** The guard is the only way past a zero divisor. *)
Lemma score_never_divides_by_zero (a b u : Z) :
  calculate_m_to_n_score a b u <> Raise ZeroDivisionError.
Proof.
  destruct (Z.eq_dec (Z.min a b) 0) as [H0|Hne].
  - by rewrite score_guard.
  - rewrite score_divides by exact Hne. by destruct (to_float _).
Qed.

(** ** Encoding-robust reader *)

Lemma read_csv_at (file_path : string) (f : file) (encoding : option string)
    (w : World) :
  files w !! file_path = Some f ->
  read_csv file_path encoding w = (pd_read_csv (file_bytes f) encoding, w).
Proof. intros Hf. unfold read_csv. by rewrite Hf. Qed.

Lemma try_encodings_files (file_path : string) (encodings : list (option string)) :
  forall w, files (snd (try_encodings file_path encodings w)) = files w.
Proof.
  induction encodings as [|encoding rest IH]; intros w; simpl; [done|].
  unfold read_csv.
  destruct (files w !! file_path) as [f|]; simpl.
  - destruct (pd_read_csv (file_bytes f) encoding) as [df|e]; [done|].
    destruct e; unfold bind, print; simpl; by rewrite IH.
  - unfold bind, print; simpl. by rewrite IH.
Qed.

Lemma try_encodings_step_fail (file_path : string) (f : file)
    (encoding : option string) (rest : list (option string)) (w : World) :
  files w !! file_path = Some f ->
  attempt_fails (file_bytes f) encoding ->
  exists m,
    try_encodings file_path (encoding :: rest) w =
      try_encodings file_path rest (mkWorld (files w) (console w ++ [m])).
Proof.
  intros Hf [e He]. simpl. rewrite (read_csv_at _ _ _ _ Hf), He.
  destruct e; eexists; unfold bind, print; simpl; reflexivity.
Qed.

Lemma try_encodings_all_fail (file_path : string) (f : file)
    (encodings : list (option string)) :
  forall w, files w !! file_path = Some f ->
    Forall (attempt_fails (file_bytes f)) encodings ->
    fst (try_encodings file_path encodings w) = Raise no_encoding_error.
Proof.
  induction encodings as [|encoding rest IH]; intros w Hf Hall; [done|].
  inversion Hall as [|? ? Hhd Htl]; subst.
  destruct (try_encodings_step_fail _ _ _ rest w Hf Hhd) as [m ->].
  by apply IH.
Qed.

Lemma try_encodings_first_success (file_path : string) (f : file)
    (tried : list (option string)) (encoding : option string)
    (rest : list (option string)) (df : DataFrame) :
  forall w, files w !! file_path = Some f ->
    Forall (attempt_fails (file_bytes f)) tried ->
    pd_read_csv (file_bytes f) encoding = Ok df ->
    fst (try_encodings file_path (tried ++ encoding :: rest) w) = Ok df.
Proof.
  induction tried as [|e0 tried IH]; intros w Hf Hall Hok.
  - simpl. by rewrite (read_csv_at _ _ _ _ Hf), Hok.
  - inversion Hall as [|? ? Hhd Htl]; subst.
    rewrite <- app_comm_cons.
    destruct (try_encodings_step_fail _ _ _ (tried ++ encoding :: rest) w Hf Hhd)
      as [m ->].
    by apply IH.
Qed.

(** Either every attempt fails or there is a first one that parses. *)
Lemma attempts_cases (data : list Byte.byte) (encodings : list (option string)) :
  Forall (attempt_fails data) encodings \/
  exists tried encoding rest df,
    encodings = (tried ++ encoding :: rest)%list /\
    Forall (attempt_fails data) tried /\
    pd_read_csv data encoding = Ok df.
Proof.
  induction encodings as [|e0 rest IH]; [by left|].
  destruct (pd_read_csv data e0) as [df|e] eqn:He0.
  - right. exists [], e0, rest, df. by split; [|split].
  - assert (Hf0 : attempt_fails data e0) by (by exists e).
    destruct IH as [Hall|(tried & enc & rest' & df & -> & Hall & Hok)].
    + left. by constructor.
    + right. exists (e0 :: tried), enc, rest', df.
      split; [done|]. split; [by constructor|done].
Qed.

(** C4. For a file that can be opened, the reader samples its first 10,000
    bytes for detection, tries the detected encoding, then utf-8,
    iso-8859-1, windows-1252 and latin1 in this order, answers the table of
    the first attempt that parses, and raises exactly when every attempt
    fails; the error is then the terminal [ValueError]. *)
Theorem reader_first_success_in_order (file_path : string) (f : file)
    (w : World) :
  files w !! file_path = Some f ->
  let data := file_bytes f in
  let detected := chardet_detect (take (Z.to_nat 10000) data) in
  let candidates :=
    [detected; Some "utf-8"; Some "iso-8859-1"; Some "windows-1252";
     Some "latin1"] in
  let outcome := fst (read_csv_with_encoding file_path w) in
  (forall df,
     outcome = Ok df <->
     exists tried encoding rest,
       candidates = (tried ++ encoding :: rest)%list /\
       Forall (attempt_fails data) tried /\
       pd_read_csv data encoding = Ok df)
  /\ ((exists e, outcome = Raise e) <-> Forall (attempt_fails data) candidates)
  /\ (forall e, outcome = Raise e -> e = no_encoding_error).
Proof.
  intros Hf data detected candidates outcome.
  assert (Hout : outcome = fst (try_encodings file_path candidates w)).
  { unfold outcome, read_csv_with_encoding, detect_encoding, read_rb, bind, ret.
    simpl. by rewrite Hf. }
  assert (Hexcl : forall tried encoding rest df,
             candidates = (tried ++ encoding :: rest)%list ->
             Forall (attempt_fails data) tried ->
             pd_read_csv data encoding = Ok df ->
             outcome = Ok df).
  { intros tried encoding rest df Heq Hall Hok. rewrite Hout, Heq.
    by apply (try_encodings_first_success file_path f). }
  destruct (attempts_cases data candidates)
    as [Hall|(tried & encoding & rest & df0 & Heq & Htried & Hok)].
  - assert (Hraise : outcome = Raise no_encoding_error).
    { rewrite Hout. by apply (try_encodings_all_fail file_path f). }
    split; [|split].
    + intros df. split.
      * intros Hdf. rewrite Hraise in Hdf. discriminate.
      * intros (tr & enc & rs & Heq & Htr & Hok).
        by apply (Hexcl tr enc rs).
    + split; [done|]. intros _. by exists no_encoding_error.
    + intros e He. rewrite Hraise in He. by inversion He.
  - pose proof (Hexcl _ _ _ _ Heq Htried Hok) as Hdf0.
    split; [|split].
    + intros df. split.
      * intros Hdf. rewrite Hdf0 in Hdf. inversion Hdf; subst.
        by exists tried, encoding, rest.
      * intros (tr & enc & rs & Heq' & Htr & Hok').
        by apply (Hexcl tr enc rs).
    + split.
      * intros [e He]. rewrite Hdf0 in He. discriminate.
      * intros Hall. rewrite Heq in Hall.
        apply Forall_app in Hall as [_ Hall].
        inversion Hall as [|? ? [e He] _]; subst. rewrite Hok in He. discriminate.
    + intros e He. rewrite Hdf0 in He. discriminate.
Qed.


(** ** Value tally *)

Lemma split_nonempty (sep : ascii) (s : string) : split sep s <> [].
Proof.
  induction s as [|c r IH]; simpl; [done|].
  destruct (Ascii.eqb c sep); [done|]. by destruct (split sep r).
Qed.

Lemma join_cons (sep : ascii) (piece : string) (rest : list string) :
  rest <> [] -> join sep (piece :: rest) = piece ++ String sep (join sep rest).
Proof. by destruct rest. Qed.

(** Gluing the pieces back with the separator gives the text again. *)
Lemma join_split (sep : ascii) (s : string) : join sep (split sep s) = s.
Proof.
  induction s as [|c r IH]; simpl; [done|].
  destruct (Ascii.eqb_spec c sep) as [->|Hne].
  - rewrite join_cons by apply split_nonempty. simpl. by rewrite IH.
  - pose proof (split_nonempty sep r) as Hnil.
    destruct (split sep r) as [|piece pieces]; [done|].
    destruct pieces as [|p2 ps]; simpl in *; by rewrite <- IH.
Qed.

(** No piece holds the separator. *)
Lemma split_no_sep (sep : ascii) (s : string) :
  Forall (fun piece => contains sep piece = false) (split sep s).
Proof.
  induction s as [|c r IH]; simpl.
  - by constructor.
  - destruct (Ascii.eqb c sep) eqn:Hc.
    + by constructor.
    + destruct (split sep r) as [|piece pieces].
      * constructor; [|done]. simpl. by rewrite Hc.
      * inversion IH as [|? ? Hp Hps]; subst.
        constructor; [|done]. simpl. by rewrite Hc, Hp.
Qed.

Lemma Counter_fold_get (values : list string) :
  forall (acc : gmap string nat) (value : string),
    default 0%nat (fold_left Counter_add values acc !! value)
    = (default 0%nat (acc !! value) + occurrences value values)%nat.
Proof.
  unfold occurrences.
  induction values as [|v values IH]; intros acc value; simpl; [lia|].
  rewrite IH. unfold Counter_add.
  destruct (String.string_dec v value) as [->|Hne].
  - rewrite lookup_insert_eq. simpl. lia.
  - by rewrite lookup_insert_ne.
Qed.

Lemma Counter_fold_dom (values : list string) :
  forall acc : gmap string nat,
    dom (fold_left Counter_add values acc) = dom acc ∪ list_to_set values.
Proof.
  induction values as [|v values IH]; intros acc; simpl.
  - by rewrite (right_id_L ∅ (∪)).
  - rewrite IH. unfold Counter_add. rewrite dom_insert_L.
    by rewrite (comm_L (∪) {[v]} (dom acc)), (assoc_L (∪)).
Qed.

Lemma Counter_get (values : list string) (value : string) :
  get0 (Counter values) value = Z.of_nat (occurrences value values).
Proof.
  unfold get0, Counter. rewrite Counter_fold_get.
  by rewrite lookup_empty.
Qed.

Lemma Counter_dom (values : list string) :
  dom (Counter values) = list_to_set values.
Proof.
  unfold Counter. rewrite Counter_fold_dom, dom_empty_L.
  by rewrite (left_id_L ∅ (∪)).
Qed.

Lemma occurrences_concat (value : string) (lists : list (list string)) :
  occurrences value (concat lists)
  = sum_list (map (occurrences value) lists).
Proof.
  unfold occurrences.
  induction lists as [|l lists IH]; simpl; [done|].
  by rewrite count_occ_app, IH.
Qed.

Lemma elem_of_concat_map {A} (f : A -> list string) (xs : list A)
    (value : string) :
  value ∈ concat (map f xs) <-> exists x, x ∈ xs /\ value ∈ f x.
Proof.
  induction xs as [|x xs IH]; simpl.
  - split; [by intros ?%elem_of_nil|]. by intros (x & ?%elem_of_nil & _).
  - rewrite elem_of_app, IH. split.
    + intros [Hv|(y & Hy & Hv)].
      * exists x. split; [apply list_elem_of_here|done].
      * exists y. split; [by apply list_elem_of_further|done].
    + intros (y & Hy & Hv). apply elem_of_cons in Hy as [->|Hy]; [by left|].
      right. by exists y.
Qed.

Lemma count_occurrences_present (df : DataFrame) (column : string) :
  column ∈ columns df ->
  count_occurrences df column =
    Ok (Counter (explode (str_split
          (map astype_str
             (map (fun r : gmap string string => r !! column) (rows df)))))).
Proof.
  intros Hin. unfold count_occurrences, getitem, has_column.
  by rewrite bool_decide_eq_true_2.
Qed.

(** C5. For a column of the table, the tally of a value is the number of
    times the value stands among the comma-separated pieces of the cells,
    each cell taken as text and a missing cell as the text nan; the pieces
    are cut at every comma and at nothing else, so nothing is trimmed. *)
Theorem count_occurrences_splits_cells (df : DataFrame) (column : string) :
  column ∈ columns df ->
  exists counts,
    count_occurrences df column = Ok counts
    /\ (forall value,
          get0 counts value =
          Z.of_nat (sum_list (map
            (fun r : gmap string string =>
               occurrences value (split "," (astype_str (r !! column))))
            (rows df))))
    /\ (forall value,
          value ∈ dom counts <->
          exists r : gmap string string,
            r ∈ rows df /\ value ∈ split "," (astype_str (r !! column)))
    /\ (forall r : gmap string string,
          r !! column = None -> astype_str (r !! column) = "nan")
    /\ (forall text,
          join "," (split "," text) = text /\
          Forall (fun piece => contains "," piece = false) (split "," text)).
Proof.
  intros Hin. eexists. split; [by apply count_occurrences_present|].
  split; [|split; [|split]].
  - intros value. rewrite Counter_get. unfold explode, str_split.
    rewrite occurrences_concat. by rewrite !map_map.
  - intros value. rewrite Counter_dom, elem_of_list_to_set.
    unfold explode, str_split. rewrite !map_map.
    apply elem_of_concat_map.
  - by intros r ->.
  - intros text. split; [apply join_split|apply split_no_sep].
Qed.

(** ** Report writer *)

Lemma alter_present (g : file -> file) (name : string) (x : file)
    (m : gmap string file) :
  m !! name = Some x -> alter g name m = <[name := g x]> m.
Proof.
  intros Hx. apply map_eq. intros k.
  destruct (decide (name = k)) as [<-|Hne].
  - by rewrite lookup_alter_eq, lookup_insert_eq, Hx.
  - by rewrite lookup_alter_ne, lookup_insert_ne.
Qed.

Lemma writerow_appends (filename : string) (record : list field)
    (records : list (list field)) (w : World) :
  files w !! filename = Some (CsvFile records) ->
  writerow filename record w =
    (Ok tt,
     mkWorld (<[filename := CsvFile (records ++ [record])]> (files w))
       (console w)).
Proof.
  intros Hf. unfold writerow. by rewrite (alter_present _ _ _ _ Hf).
Qed.

Lemma for_each_writerow {A} (filename : string) (g : A -> list field)
    (xs : list A) :
  forall (records : list (list field)) (w : World),
    files w !! filename = Some (CsvFile records) ->
    for_each xs (fun x => writerow filename (g x)) w =
      (Ok tt,
       mkWorld (<[filename := CsvFile (records ++ map g xs)]> (files w))
         (console w)).
Proof.
  induction xs as [|x xs IH]; intros records w Hf; simpl.
  - unfold ret. rewrite app_nil_r, insert_id by done. by destruct w.
  - unfold bind at 1. rewrite (writerow_appends _ _ _ _ Hf).
    rewrite (IH (records ++ [g x])%list) by (simpl; apply lookup_insert_eq).
    simpl. by rewrite insert_insert_eq, <- app_assoc.
Qed.

(** The whole effect of the writer: one file replaced, nothing printed. *)
Lemma write_counts_to_csv_effect (imdb_counts omdb_counts : gmap string nat)
    (filename column_name : string) (w : World) :
  write_counts_to_csv imdb_counts omdb_counts filename column_name w =
    (Ok tt,
     mkWorld
       (<[filename :=
            CsvFile (header_record column_name ::
                     map (value_record imdb_counts omdb_counts)
                       (elements (dom imdb_counts ∪ dom omdb_counts)))]>
          (files w))
       (console w)).
Proof.
  unfold write_counts_to_csv, bind at 1, open_w.
  unfold bind at 1.
  rewrite (writerow_appends _ _ []) by (simpl; apply lookup_insert_eq).
  simpl.
  rewrite (for_each_writerow filename
             (value_record imdb_counts omdb_counts) _
             [header_record column_name])
    by (simpl; apply lookup_insert_eq).
  simpl. by rewrite !insert_insert_eq.
Qed.

(** ** Column analyzer *)

Lemma has_column_true (df : DataFrame) (column : string) :
  has_column df column = true <-> column ∈ columns df.
Proof. unfold has_column. apply bool_decide_eq_true. Qed.

Lemma count_occurrences_ok_column (df : DataFrame) (column : string)
    (counts : gmap string nat) :
  count_occurrences df column = Ok counts -> column ∈ columns df.
Proof.
  unfold count_occurrences, getitem. intros H.
  destruct (has_column df column) eqn:Hc; [by apply has_column_true|done].
Qed.

Lemma analyze_column_missing (imdb_df omdb_df : DataFrame) (column : string)
    (w : World) :
  column ∉ columns imdb_df \/ capitalize column ∉ columns omdb_df ->
  analyze_column imdb_df omdb_df column w =
    (Ok (0, 0, 0, PyInt 0),
     mkWorld (files w)
       (console w ++ [MsgAnalyzing column; MsgColumnNotFound column])).
Proof.
  intros Hmiss. unfold analyze_column.
  assert (Hb : (has_column imdb_df column
                && has_column omdb_df (capitalize column))%bool = false).
  { apply andb_false_iff. unfold has_column.
    destruct Hmiss as [H|H]; [left|right]; by apply bool_decide_eq_false. }
  rewrite Hb. unfold bind, print, ret. simpl. by rewrite <- app_assoc.
Qed.

(** The analysis of a column both tables have: the report file is written,
    six lines are printed and the three lengths go to the scorer. *)
Lemma analyze_column_present (imdb_df omdb_df : DataFrame) (column : string)
    (imdb_counts omdb_counts : gmap string nat) (score : pynum) (w : World) :
  count_occurrences imdb_df column = Ok imdb_counts ->
  count_occurrences omdb_df (capitalize column) = Ok omdb_counts ->
  calculate_m_to_n_score (len imdb_counts) (len omdb_counts)
    (len_set (dom imdb_counts ∪ dom omdb_counts)) = Ok score ->
  analyze_column imdb_df omdb_df column w =
    (Ok (len imdb_counts, len omdb_counts,
         len_set (dom imdb_counts ∪ dom omdb_counts), score),
     mkWorld
       (<[column ++ "_counts.csv" :=
            CsvFile (header_record (capitalize column) ::
                     map (value_record imdb_counts omdb_counts)
                       (elements (dom imdb_counts ∪ dom omdb_counts)))]>
          (files w))
       (console w ++
        [MsgAnalyzing column;
         MsgCountsWritten column (column ++ "_counts.csv");
         MsgUniqueImdb column (len imdb_counts);
         MsgUniqueOmdb column (len omdb_counts);
         MsgUniqueTotal column (len_set (dom imdb_counts ∪ dom omdb_counts));
         MsgScore score])).
Proof.
  intros Hi Ho Hs. unfold analyze_column.
  rewrite (proj2 (has_column_true _ _) (count_occurrences_ok_column _ _ _ Hi)).
  rewrite (proj2 (has_column_true _ _) (count_occurrences_ok_column _ _ _ Ho)).
  simpl andb. cbv iota.
  rewrite Hi, Ho.
  unfold bind at 1. unfold print at 1. simpl.
  unfold bind at 1. unfold lift at 1.
  unfold bind at 1. unfold lift at 1.
  unfold bind at 1. rewrite write_counts_to_csv_effect.
  rewrite Hs.
  unfold bind, print, lift, ret. simpl.
  by rewrite <- !app_assoc.
Qed.

Lemma len_dom (counts : gmap string nat) : len counts = len_set (dom counts).
Proof. unfold len, len_set. by rewrite size_dom. Qed.

(** On the lengths of two tallies the scorer always answers. *)
Lemma tallies_score_total (imdb_counts omdb_counts : gmap string nat) :
  exists score,
    calculate_m_to_n_score (len imdb_counts) (len omdb_counts)
      (len_set (dom imdb_counts ∪ dom omdb_counts)) = Ok score.
Proof.
  rewrite !len_dom.
  destruct (score_of_bounded_overlap _ _ _
              (overlap_bounds (dom imdb_counts) (dom omdb_counts)))
    as (s & Hs & _).
  by exists s.
Qed.

(** C6. The writer leaves in the comparison file the header record (the
    column label, IMDB Count, OMDB Count) and then one record per value of
    the union of the two key sets, each with the value's count on either
    side and 0 where the value is absent; the file has as many records as
    the union has values, plus one.  The analyzer writes the file of a
    column through this writer, under the capitalized column name. *)
Theorem comparison_file_one_record_per_value :
  (forall (imdb_counts omdb_counts : gmap string nat)
          (filename column_name : string) (w : World),
     exists (values : list string) (w' : World),
       write_counts_to_csv imdb_counts omdb_counts filename column_name w
         = (Ok tt, w')
       /\ NoDup values
       /\ (forall v, v ∈ values <-> v ∈ dom imdb_counts \/ v ∈ dom omdb_counts)
       /\ files w' !! filename =
            Some (CsvFile
              ([FStr column_name; FStr "IMDB Count"; FStr "OMDB Count"] ::
               map (fun v => [FStr v; FInt (get0 imdb_counts v);
                              FInt (get0 omdb_counts v)]) values))
       /\ Z.of_nat (length values) + 1
            = len_set (dom imdb_counts ∪ dom omdb_counts) + 1
       /\ (forall v, v ∉ dom imdb_counts -> get0 imdb_counts v = 0)
       /\ (forall v, v ∉ dom omdb_counts -> get0 omdb_counts v = 0)
       /\ (forall other, other <> filename ->
             files w' !! other = files w !! other)
       /\ console w' = console w)
  /\ (forall (imdb_df omdb_df : DataFrame) (column : string)
             (imdb_counts omdb_counts : gmap string nat) (w : World),
        count_occurrences imdb_df column = Ok imdb_counts ->
        count_occurrences omdb_df (capitalize column) = Ok omdb_counts ->
        files (snd (analyze_column imdb_df omdb_df column w)) =
        files (snd (write_counts_to_csv imdb_counts omdb_counts
                      (column ++ "_counts.csv") (capitalize column) w))).
Proof.
  split.
  - intros imdb_counts omdb_counts filename column_name w.
    exists (elements (dom imdb_counts ∪ dom omdb_counts)). eexists.
    split; [apply write_counts_to_csv_effect|]. simpl.
    split; [apply NoDup_elements|].
    split; [intros v; by rewrite elem_of_elements, elem_of_union|].
    split; [apply lookup_insert_eq|].
    split; [reflexivity|].
    split; [|split; [|split; [|reflexivity]]].
    + intros v Hv. unfold get0.
      by rewrite (proj1 (not_elem_of_dom imdb_counts v) Hv).
    + intros v Hv. unfold get0.
      by rewrite (proj1 (not_elem_of_dom omdb_counts v) Hv).
    + intros other Hne. by apply lookup_insert_ne.
  - intros imdb_df omdb_df column imdb_counts omdb_counts w Hi Ho.
    destruct (tallies_score_total imdb_counts omdb_counts) as [score Hs].
    rewrite (analyze_column_present _ _ _ _ _ _ w Hi Ho Hs).
    by rewrite write_counts_to_csv_effect.
Qed.

(** ** Ranking driver *)

(** What one call of the analyzer can answer. *)
Lemma analyze_column_cases (imdb_df omdb_df : DataFrame) (column : string)
    (w : World) :
  ((column ∉ columns imdb_df \/ capitalize column ∉ columns omdb_df) /\
   exists w',
     analyze_column imdb_df omdb_df column w = (Ok (0, 0, 0, PyInt 0), w'))
  \/ (exists (imdb_counts omdb_counts : gmap string nat) (score : pynum)
             (w' : World),
        count_occurrences imdb_df column = Ok imdb_counts
        /\ count_occurrences omdb_df (capitalize column) = Ok omdb_counts
        /\ calculate_m_to_n_score (len imdb_counts) (len omdb_counts)
             (len_set (dom imdb_counts ∪ dom omdb_counts)) = Ok score
        /\ analyze_column imdb_df omdb_df column w =
             (Ok (len imdb_counts, len omdb_counts,
                  len_set (dom imdb_counts ∪ dom omdb_counts), score), w')).
Proof.
  destruct (decide (column ∈ columns imdb_df)) as [Hi|Hi];
    [destruct (decide (capitalize column ∈ columns omdb_df)) as [Ho|Ho]|].
  - right.
    pose proof (count_occurrences_present _ _ Hi) as Hci.
    pose proof (count_occurrences_present _ _ Ho) as Hco.
    destruct (tallies_score_total
                (Counter (explode (str_split (map astype_str
                   (map (fun r : gmap string string => r !! column)
                      (rows imdb_df))))))
                (Counter (explode (str_split (map astype_str
                   (map (fun r : gmap string string => r !! capitalize column)
                      (rows omdb_df)))))))
      as [score Hs].
    eexists _, _, score, _. split; [exact Hci|]. split; [exact Hco|].
    split; [exact Hs|]. by apply analyze_column_present.
  - left. split; [by right|]. eexists. apply analyze_column_missing. by right.
  - left. split; [by left|]. eexists. apply analyze_column_missing. by left.
Qed.

(** The loop keeps the property of its list: one more iteration appends
    nothing, or an analysed entry with more than one value on both sides. *)
Lemma collect_invariant (imdb_df omdb_df : DataFrame) (cols : list string) :
  forall (join_candidates : list candidate) (w : World),
    Forall (fun x => analysed imdb_df omdb_df x /\ informative x)
      join_candidates ->
    exists (l : list candidate) (w' : World),
      collect imdb_df omdb_df cols join_candidates w = (Ok l, w')
      /\ Forall (fun x => analysed imdb_df omdb_df x /\ informative x) l.
Proof.
  induction cols as [|column rest IH]; intros acc w Hacc.
  - by exists acc, w.
  - simpl. unfold bind at 1.
    destruct (analyze_column_cases imdb_df omdb_df column w)
      as [[_ [w' ->]]|(ic & oc & score & w' & Hi & Ho & Hs & ->)].
    + simpl. by apply IH.
    + destruct ((1 <? len ic) && (1 <? len oc))%bool eqn:Hq; [|by apply IH].
      apply IH. apply Forall_app. split; [done|].
      apply andb_true_iff in Hq as [Hq1 Hq2].
      constructor; [|done]. split.
      * by exists ic, oc.
      * split; simpl; by apply Z.ltb_lt.
Qed.

Lemma for_each_prints {A} (body : A -> M unit) (xs : list A) :
  (forall x w, exists m,
      body x w = (Ok tt, mkWorld (files w) (console w ++ [m]))) ->
  forall w, exists ms,
    for_each xs body w = (Ok tt, mkWorld (files w) (console w ++ ms)).
Proof.
  intros Hbody. induction xs as [|x xs IH]; intros w; simpl.
  - exists []. unfold ret. rewrite app_nil_r. by destruct w.
  - unfold bind. destruct (Hbody x w) as [m ->].
    destruct (IH (mkWorld (files w) (console w ++ [m]))) as [ms ->].
    exists (m :: ms). simpl. by rewrite <- app_assoc.
Qed.

(** The ranking is the sorted list of what the loop collected. *)
Lemma rank_from_collect (imdb_df omdb_df : DataFrame) (cols : list string)
    (l : list candidate) (w w1 : World) :
  collect imdb_df omdb_df cols [] w = (Ok l, w1) ->
  exists w', rank imdb_df omdb_df cols w = (Ok (sort_desc l), w').
Proof.
  intros Hc. unfold rank. unfold bind at 1. rewrite Hc.
  unfold bind at 1. unfold print at 1.
  unfold bind at 1.
  match goal with
  | |- context [for_each ?xs ?body ?w0] =>
      destruct (for_each_prints body xs) with (w := w0) as [ms ->]
  end.
  - intros [[[[c a] b] u] sc] w0. by eexists.
  - by eexists.
Qed.

Lemma py_lt_true (a b : pynum) :
  py_lt a b = true -> (num_val a <= num_val b)%Q.
Proof.
  unfold py_lt. intros H. apply negb_true_iff in H.
  apply Qlt_le_weak, Qnot_le_lt. intros Hle.
  apply Qle_bool_iff in Hle. congruence.
Qed.

Lemma py_lt_false (a b : pynum) :
  py_lt a b = false -> (num_val b <= num_val a)%Q.
Proof.
  unfold py_lt. intros H. apply negb_false_iff in H.
  by apply Qle_bool_iff.
Qed.

Lemma insert_desc_perm (x : candidate) (l : list candidate) :
  Permutation (x :: l) (insert_desc x l).
Proof.
  induction l as [|y l IH]; simpl; [done|].
  destruct (py_lt (cand_score x) (cand_score y)); [|done].
  rewrite <- IH. apply perm_swap.
Qed.

Lemma sort_desc_perm (l : list candidate) : Permutation l (sort_desc l).
Proof.
  induction l as [|x l IH]; simpl; [done|].
  rewrite <- insert_desc_perm. by constructor.
Qed.

Lemma insert_desc_HdRel (y x : candidate) (l : list candidate) :
  score_ge y x -> HdRel score_ge y l -> HdRel score_ge y (insert_desc x l).
Proof.
  intros Hyx Hl. destruct l as [|z l]; simpl; [by constructor|].
  destruct (py_lt (cand_score x) (cand_score z)); constructor; [|done].
  by inversion Hl.
Qed.

Lemma insert_desc_sorted (x : candidate) (l : list candidate) :
  Sorted score_ge l -> Sorted score_ge (insert_desc x l).
Proof.
  induction l as [|y l IH]; intros Hs; simpl.
  - by repeat constructor.
  - inversion Hs as [|? ? Hl Hhd]; subst.
    destruct (py_lt (cand_score x) (cand_score y)) eqn:Hlt.
    + constructor; [by apply IH|].
      apply insert_desc_HdRel; [|done]. by apply py_lt_true.
    + constructor; [done|]. constructor. by apply py_lt_false.
Qed.

Lemma sort_desc_sorted (l : list candidate) : Sorted score_ge (sort_desc l).
Proof.
  induction l as [|x l IH]; simpl; [constructor|].
  by apply insert_desc_sorted.
Qed.

Lemma sorted_adjacent (l : list candidate) :
  Sorted score_ge l ->
  forall (i : nat) (x y : candidate),
    l !! i = Some x -> l !! S i = Some y -> score_ge x y.
Proof.
  induction 1 as [|a l Hs IH Hhd]; intros i x y Hx Hy; [done|].
  destruct i as [|i]; simpl in *.
  - inversion Hx; subst. destruct l as [|b l]; [done|].
    simpl in Hy. inversion Hy; subst. by inversion Hhd.
  - by apply (IH i).
Qed.

Lemma rank_keeps (imdb_df omdb_df : DataFrame) (cols : list string)
    (w : World) :
  exists (collected ranked : list candidate) (w1 w' : World),
    collect imdb_df omdb_df cols [] w = (Ok collected, w1)
    /\ rank imdb_df omdb_df cols w = (Ok ranked, w')
    /\ ranked = sort_desc collected
    /\ Forall (fun x => analysed imdb_df omdb_df x /\ informative x) ranked.
Proof.
  destruct (collect_invariant imdb_df omdb_df cols [] w)
    as (l & w1 & Hc & Hl); [by constructor|].
  destruct (rank_from_collect _ _ _ _ _ _ Hc) as [w' Hr].
  exists l, (sort_desc l), w1, w'. split; [done|]. split; [done|].
  split; [done|].
  eapply Permutation_Forall; [apply sort_desc_perm|done].
Qed.

(** C7. An entry of the final list reports the analysis of its column and
    has more than one distinct value on both sides.  Every iteration of the
    loop keeps this true of the list it extends, and the sort keeps it. *)
Theorem only_informative_columns_ranked (imdb_df omdb_df : DataFrame)
    (cols : list string) :
  (forall (join_candidates : list candidate) (w : World),
     Forall (fun x => analysed imdb_df omdb_df x /\ informative x)
       join_candidates ->
     exists (l : list candidate) (w' : World),
       collect imdb_df omdb_df cols join_candidates w = (Ok l, w')
       /\ Forall (fun x => analysed imdb_df omdb_df x /\ informative x) l)
  /\ (forall w : World,
        exists (ranked : list candidate) (w' : World),
          rank imdb_df omdb_df cols w = (Ok ranked, w')
          /\ Forall (fun x =>
                 analysed imdb_df omdb_df x
                 /\ 1 < cand_imdb_unique x /\ 1 < cand_omdb_unique x)
               ranked).
Proof.
  split.
  - apply collect_invariant.
  - intros w.
    destruct (rank_keeps imdb_df omdb_df cols w)
      as (l & ranked & w1 & w' & _ & Hr & _ & Hall).
    by exists ranked, w'.
Qed.

(** C8. The final list holds the collected candidates, reordered so that
    of two adjacent entries the earlier one has the greater or equal score. *)
Theorem ranking_sorted_descending (imdb_df omdb_df : DataFrame)
    (cols : list string) (w : World) :
  exists (collected ranked : list candidate) (w1 w' : World),
    collect imdb_df omdb_df cols [] w = (Ok collected, w1)
    /\ rank imdb_df omdb_df cols w = (Ok ranked, w')
    /\ Permutation collected ranked
    /\ forall (i : nat) (x y : candidate),
         ranked !! i = Some x -> ranked !! S i = Some y ->
         (num_val (cand_score y) <= num_val (cand_score x))%Q.
Proof.
  destruct (rank_keeps imdb_df omdb_df cols w)
    as (l & ranked & w1 & w' & Hc & Hr & -> & _).
  exists l, (sort_desc l), w1, w'. split; [done|]. split; [done|].
  split; [apply sort_desc_perm|].
  apply sorted_adjacent, sort_desc_sorted.
Qed.

(** C9. For a column that table A lacks under its own name, or table B
    lacks under the capitalized name, the analyzer answers (0, 0, 0, 0),
    and no entry of a ranking carries the column. *)
Theorem missing_column_zero_and_unranked (imdb_df omdb_df : DataFrame)
    (column : string) :
  column ∉ columns imdb_df \/ capitalize column ∉ columns omdb_df ->
  (forall w : World,
     fst (analyze_column imdb_df omdb_df column w) = Ok (0, 0, 0, PyInt 0))
  /\ (forall (cols : list string) (w : World),
        exists (ranked : list candidate) (w' : World),
          rank imdb_df omdb_df cols w = (Ok ranked, w')
          /\ Forall (fun x => cand_column x <> column) ranked).
Proof.
  intros Hmiss. split.
  - intros w. by rewrite analyze_column_missing.
  - intros cols w.
    destruct (rank_keeps imdb_df omdb_df cols w)
      as (l & ranked & w1 & w' & _ & Hr & _ & Hall).
    exists ranked, w'. split; [done|].
    eapply Forall_impl; [exact Hall|].
    intros x [(ic & oc & Hi & Ho & _) _] Heq. rewrite Heq in Hi, Ho.
    destruct Hmiss as [Hm|Hm]; apply Hm.
    + by apply (count_occurrences_ok_column _ _ ic).
    + by apply (count_occurrences_ok_column _ _ oc).
Qed.

(** C10. On the missing-column branch the analyzer leaves every file as it
    was, the report file of the column included, and only prints its two
    lines. *)
Theorem missing_column_writes_no_file (imdb_df omdb_df : DataFrame)
    (column : string) (w : World) :
  column ∉ columns imdb_df \/ capitalize column ∉ columns omdb_df ->
  exists w' : World,
    analyze_column imdb_df omdb_df column w = (Ok (0, 0, 0, PyInt 0), w')
    /\ files w' = files w
    /\ files w' !! (column ++ "_counts.csv") = files w !! (column ++ "_counts.csv")
    /\ console w' =
         (console w ++ [MsgAnalyzing column; MsgColumnNotFound column])%list.
Proof.
  intros Hmiss. eexists. split; [by apply analyze_column_missing|]. done.
Qed.

(** ** Further properties *)

(** X1. The score does not depend on which table is called A: swapping the
    two distinct counts under the same union count gives the same answer. *)
Theorem score_symmetric (imdb_unique omdb_unique total_unique : Z) :
  calculate_m_to_n_score imdb_unique omdb_unique total_unique
  = calculate_m_to_n_score omdb_unique imdb_unique total_unique.
Proof.
  unfold calculate_m_to_n_score.
  rewrite (Z.min_comm omdb_unique imdb_unique).
  by rewrite (Z.add_comm omdb_unique imdb_unique).
Qed.


(** ** More on the reader *)

Lemma read_csv_with_encoding_opened (file_path : string) (f : file)
    (w : World) :
  files w !! file_path = Some f ->
  read_csv_with_encoding file_path w =
    try_encodings file_path (candidate_encodings (file_bytes f)) w.
Proof.
  intros Hf.
  unfold read_csv_with_encoding, detect_encoding, read_rb, bind, ret.
  by rewrite Hf.
Qed.

Lemma try_encodings_console_grows (file_path : string)
    (encodings : list (option string)) :
  forall w, exists printed : list message,
    console (snd (try_encodings file_path encodings w))
    = (console w ++ printed)%list.
Proof.
  induction encodings as [|encoding rest IH]; intros w; simpl.
  - exists []. by rewrite app_nil_r.
  - destruct (read_csv file_path encoding w) as [[df|e] w1] eqn:Hr.
    + assert (w1 = w) as ->.
      { unfold read_csv in Hr. destruct (files w !! file_path); by inversion Hr. }
      by eexists.
    + assert (w1 = w) as ->.
      { unfold read_csv in Hr. destruct (files w !! file_path); by inversion Hr. }
      destruct e; unfold bind, print; simpl;
        match goal with
        | |- context [try_encodings file_path rest ?w0] =>
            destruct (IH w0) as [printed ->]
        end; simpl; rewrite <- app_assoc; by eexists.
Qed.

Lemma try_encodings_console_fail (file_path : string) (f : file)
    (encodings : list (option string)) :
  forall w, files w !! file_path = Some f ->
    Forall (attempt_fails (file_bytes f)) encodings ->
    console (snd (try_encodings file_path encodings w)) =
      (console w ++ map (attempt_message (file_bytes f)) encodings)%list.
Proof.
  induction encodings as [|encoding rest IH]; intros w Hf Hall.
  - simpl. by rewrite app_nil_r.
  - inversion Hall as [|? ? [e He] Htl]; subst.
    simpl. rewrite (read_csv_at _ _ _ _ Hf), He.
    unfold attempt_message at 1. rewrite He.
    destruct e; unfold bind, print; simpl;
      (rewrite IH by done); simpl; by rewrite <- app_assoc.
Qed.

Lemma try_encodings_console_success (file_path : string) (f : file)
    (tried : list (option string)) (encoding : option string)
    (rest : list (option string)) (df : DataFrame) :
  forall w, files w !! file_path = Some f ->
    Forall (attempt_fails (file_bytes f)) tried ->
    pd_read_csv (file_bytes f) encoding = Ok df ->
    console (snd (try_encodings file_path (tried ++ encoding :: rest) w)) =
      (console w ++ map (attempt_message (file_bytes f)) tried
       ++ [MsgReadOk encoding])%list.
Proof.
  induction tried as [|e0 tried IH]; intros w Hf Hall Hok.
  - simpl. by rewrite (read_csv_at _ _ _ _ Hf), Hok.
  - inversion Hall as [|? ? [e He] Htl]; subst.
    rewrite <- app_comm_cons. simpl.
    rewrite (read_csv_at _ _ _ _ Hf), He.
    unfold attempt_message at 1. rewrite He.
    destruct e; unfold bind, print; simpl;
      (rewrite IH by done); simpl; by rewrite <- app_assoc.
Qed.

Lemma reader_keeps_files_aux (file_path : string) (w : World) :
  files (snd (read_csv_with_encoding file_path w)) = files w.
Proof.
  destruct (files w !! file_path) as [f|] eqn:Hf.
  - rewrite (read_csv_with_encoding_opened _ _ _ Hf).
    apply try_encodings_files.
  - unfold read_csv_with_encoding, detect_encoding, read_rb, bind.
    by rewrite Hf.
Qed.

(** X3. Reading never touches a file: whatever the outcome, and for every
    path, existing or not, the files after [read_csv_with_encoding] are the
    files before it; only the console grows. *)
Theorem reader_keeps_files (file_path : string) (w : World) :
  files (snd (read_csv_with_encoding file_path w)) = files w
  /\ exists printed : list message,
       console (snd (read_csv_with_encoding file_path w))
       = (console w ++ printed)%list.
Proof.
  split; [apply reader_keeps_files_aux|].
  destruct (files w !! file_path) as [f|] eqn:Hf.
  - rewrite (read_csv_with_encoding_opened _ _ _ Hf).
    apply try_encodings_console_grows.
  - exists []. unfold read_csv_with_encoding, detect_encoding, read_rb, bind.
    rewrite Hf. simpl. by rewrite app_nil_r.
Qed.

(** X4. A file that does not exist is reported by the detection step: the
    reader raises [FileNotFoundError] for the path, tries no encoding and
    prints nothing. *)
Theorem reader_missing_file (file_path : string) (w : World) :
  files w !! file_path = None ->
  read_csv_with_encoding file_path w = (Raise (FileNotFoundError file_path), w).
Proof.
  intros Hf. unfold read_csv_with_encoding, detect_encoding, read_rb, bind.
  by rewrite Hf.
Qed.

(** X5. The reader prints one line per attempt it makes, in the order of
    the attempts: a failure line for every candidate before the first one
    that parses, then the success line of that one and nothing after it;
    when no candidate parses, a failure line for each of the five. *)
Theorem reader_prints_one_line_per_attempt (file_path : string) (f : file)
    (w : World) :
  files w !! file_path = Some f ->
  (forall (tried : list (option string)) (encoding : option string)
          (rest : list (option string)) (df : DataFrame),
     candidate_encodings (file_bytes f) = (tried ++ encoding :: rest)%list ->
     Forall (attempt_fails (file_bytes f)) tried ->
     pd_read_csv (file_bytes f) encoding = Ok df ->
     console (snd (read_csv_with_encoding file_path w)) =
       (console w ++ map (attempt_message (file_bytes f)) tried
        ++ [MsgReadOk encoding])%list)
  /\ (Forall (attempt_fails (file_bytes f))
        (candidate_encodings (file_bytes f)) ->
      console (snd (read_csv_with_encoding file_path w)) =
        (console w ++
         map (attempt_message (file_bytes f))
           (candidate_encodings (file_bytes f)))%list
      /\ Forall (fun m => forall encoding, m <> MsgReadOk encoding)
           (map (attempt_message (file_bytes f))
              (candidate_encodings (file_bytes f)))).
Proof.
  intros Hf. rewrite (read_csv_with_encoding_opened _ _ _ Hf). split.
  - intros tried encoding rest df Heq Hall Hok. rewrite Heq.
    by apply (try_encodings_console_success file_path f tried encoding rest df).
  - intros Hall. split.
    + by apply try_encodings_console_fail.
    + apply Forall_map. eapply Forall_impl; [exact Hall|].
      intros enc [e He] encoding. simpl. unfold attempt_message.
      rewrite He. by destruct e.
Qed.

(** ** More on the tally *)

Lemma length_split (sep : ascii) (s : string) :
  length (split sep s) = S (count_sep sep s).
Proof.
  induction s as [|c r IH]; simpl; [done|].
  destruct (Ascii.eqb c sep); simpl.
  - by rewrite IH.
  - pose proof (split_nonempty sep r) as Hne.
    destruct (split sep r) as [|piece pieces]; [done|].
    simpl in *. by rewrite IH.
Qed.

Lemma tally_total_insert (m : gmap string nat) (k : string) (n : nat) :
  (tally_total (<[k := n]> m) + default 0 (m !! k) = n + tally_total m)%nat.
Proof.
  unfold tally_total.
  destruct (m !! k) as [x|] eqn:Hk; simpl.
  - rewrite <- (insert_delete_eq m k n).
    rewrite map_fold_insert_L; [|intros; lia|apply lookup_delete_eq].
    rewrite (map_fold_delete_L _ _ k x m); [lia|intros; lia|done].
  - rewrite map_fold_insert_L; [lia|intros; lia|done].
Qed.

Lemma tally_total_fold (values : list string) :
  forall acc : gmap string nat,
    tally_total (fold_left Counter_add values acc)
    = (tally_total acc + length values)%nat.
Proof.
  induction values as [|v values IH]; intros acc; simpl; [lia|].
  rewrite IH. unfold Counter_add.
  pose proof (tally_total_insert acc v (S (default 0%nat (acc !! v)))).
  lia.
Qed.

Lemma tally_total_Counter (values : list string) :
  tally_total (Counter values) = length values.
Proof.
  unfold Counter. rewrite tally_total_fold.
  unfold tally_total. by rewrite map_fold_empty.
Qed.

Lemma length_concat_map {A} (g : A -> list string) (xs : list A) :
  length (concat (map g xs)) = sum_list (map (fun x => length (g x)) xs).
Proof.
  induction xs as [|x xs IH]; simpl; [done|].
  by rewrite length_app, IH.
Qed.

Lemma sum_list_S {A} (g : A -> nat) (xs : list A) :
  sum_list (map (fun x => S (g x)) xs) = (length xs + sum_list (map g xs))%nat.
Proof. induction xs as [|x xs IH]; simpl; [done|]. rewrite IH. lia. Qed.

Lemma Counter_fold_positive (values : list string) :
  forall acc : gmap string nat,
    (forall v n, acc !! v = Some n -> (1 <= n)%nat) ->
    forall v n, fold_left Counter_add values acc !! v = Some n -> (1 <= n)%nat.
Proof.
  induction values as [|x values IH]; intros acc Hacc v n; simpl; [apply Hacc|].
  apply IH. intros v' n'. unfold Counter_add.
  destruct (decide (x = v')) as [<-|Hne].
  - rewrite lookup_insert_eq. intros [= <-]. lia.
  - rewrite lookup_insert_ne by done. apply Hacc.
Qed.

(** The pieces a tally of an existing column is built from. *)
Lemma count_occurrences_pieces (df : DataFrame) (column : string)
    (counts : gmap string nat) :
  count_occurrences df column = Ok counts ->
  counts =
    Counter (concat (map (fun r : gmap string string =>
                            split "," (astype_str (r !! column))) (rows df))).
Proof.
  intros Hc.
  rewrite (count_occurrences_present _ _
             (count_occurrences_ok_column _ _ _ Hc)) in Hc.
  injection Hc as <-. unfold explode, str_split. by rewrite !map_map.
Qed.

Lemma tally_counts_positive (df : DataFrame) (column : string)
    (counts : gmap string nat) :
  count_occurrences df column = Ok counts ->
  forall v n, counts !! v = Some n -> (1 <= n)%nat.
Proof.
  intros Hc v n. rewrite (count_occurrences_pieces _ _ _ Hc). unfold Counter.
  apply Counter_fold_positive. intros v' n'. by rewrite lookup_empty.
Qed.

(** X6. The counts of a tally add up to the number of pieces of the column:
    one per row plus one per comma in the cells, so no piece is lost and
    none is counted twice. *)
Theorem tally_total_rows_plus_commas (df : DataFrame) (column : string)
    (counts : gmap string nat) :
  count_occurrences df column = Ok counts ->
  tally_total counts =
    (length (rows df) +
     sum_list (map (fun r : gmap string string =>
                      count_sep "," (astype_str (r !! column))) (rows df)))%nat.
Proof.
  intros Hc. rewrite (count_occurrences_pieces _ _ _ Hc).
  rewrite tally_total_Counter, length_concat_map.
  rewrite <- (sum_list_S (fun r : gmap string string =>
                           count_sep "," (astype_str (r !! column)))).
  f_equal. apply map_ext. intros r. apply length_split.
Qed.

(** X7. A tally never stores a count below 1, and it is empty exactly when
    the table has no rows: every cell, a missing or an empty one too, gives
    at least one piece. *)
Theorem tally_positive_and_nonempty (df : DataFrame) (column : string)
    (counts : gmap string nat) :
  count_occurrences df column = Ok counts ->
  (forall v n, counts !! v = Some n -> (1 <= n)%nat)
  /\ (counts = ∅ <-> rows df = []).
Proof.
  intros Hc. pose proof (count_occurrences_pieces _ _ _ Hc) as Hp. split.
  - by apply (tally_counts_positive df column).
  - split.
    + intros Hempty.
      assert (Ht : tally_total counts = 0%nat).
      { rewrite Hempty. unfold tally_total. by rewrite map_fold_empty. }
      rewrite Hp, tally_total_Counter, length_concat_map in Ht.
      destruct (rows df) as [|r rs]; [done|]. simpl in Ht.
      rewrite length_split in Ht. lia.
    + intros Hrows. rewrite Hp, Hrows. reflexivity.
Qed.

(** ** More on the report writer and the analyzer *)

(** X8. The writer replaces the file: what the file held before, written
    by an earlier call or by anything else, has no influence on the files
    after the call. *)
Theorem write_counts_replaces_file
    (imdb_counts omdb_counts : gmap string nat) (filename column_name : string)
    (w : World) :
  (forall prior : file,
     files (snd (write_counts_to_csv imdb_counts omdb_counts filename
                   column_name
                   (mkWorld (<[filename := prior]> (files w)) (console w))))
     = files (snd (write_counts_to_csv imdb_counts omdb_counts filename
                     column_name w)))
  /\ (forall (imdb_counts0 omdb_counts0 : gmap string nat)
             (column_name0 : string),
        files (snd (write_counts_to_csv imdb_counts omdb_counts filename
                      column_name
                      (snd (write_counts_to_csv imdb_counts0 omdb_counts0
                              filename column_name0 w))))
        = files (snd (write_counts_to_csv imdb_counts omdb_counts filename
                        column_name w))).
Proof.
  split.
  - intros prior. rewrite !write_counts_to_csv_effect. simpl.
    by rewrite insert_insert_eq.
  - intros imdb_counts0 omdb_counts0 column_name0.
    rewrite !write_counts_to_csv_effect. simpl.
    by rewrite insert_insert_eq.
Qed.



Lemma get0_positive_iff (counts : gmap string nat) (v : string) :
  (forall x n, counts !! x = Some n -> (1 <= n)%nat) ->
  (0 < get0 counts v <-> v ∈ dom counts).
Proof.
  intros Hpos. unfold get0. rewrite elem_of_dom. split.
  - destruct (counts !! v) as [n|]; [by eexists|simpl; lia].
  - intros [n Hn]. rewrite Hn. simpl. specialize (Hpos _ _ Hn). lia.
Qed.

Lemma length_filter_elements (X Y : gset string) (P : string -> Prop)
    `{!forall v, Decision (P v)} :
  (forall v, v ∈ Y -> (P v <-> v ∈ X)) -> X ⊆ Y ->
  length (filter P (elements Y)) = size X.
Proof.
  intros HP Hsub. unfold size, set_size. simpl.
  apply Permutation_length, NoDup_Permutation.
  - apply NoDup_filter, NoDup_elements.
  - apply NoDup_elements.
  - intros v. rewrite list_elem_of_filter, !elem_of_elements. split.
    + intros [Hp Hy]. by apply HP.
    + intros Hx. split; [|by apply Hsub]. apply HP; [by apply Hsub|done].
Qed.

(** X10. For a column both tables have, the report file agrees with the
    answer of the analyzer: it has one record per counted value of the union
    ([total_unique] of them after the header), [imdb_unique] of them with a
    positive IMDB count, [omdb_unique] with a positive OMDB count, and none
    with 0 on both sides. *)
Theorem report_agrees_with_answer (imdb_df omdb_df : DataFrame)
    (column : string) (imdb_counts omdb_counts : gmap string nat)
    (w : World) :
  count_occurrences imdb_df column = Ok imdb_counts ->
  count_occurrences omdb_df (capitalize column) = Ok omdb_counts ->
  exists (imdb_unique omdb_unique total_unique : Z) (score : pynum)
         (w' : World) (values : list string),
    analyze_column imdb_df omdb_df column w
      = (Ok (imdb_unique, omdb_unique, total_unique, score), w')
    /\ files w' !! (column ++ "_counts.csv") =
         Some (CsvFile
           ([FStr (capitalize column); FStr "IMDB Count"; FStr "OMDB Count"] ::
            map (fun v => [FStr v; FInt (get0 imdb_counts v);
                           FInt (get0 omdb_counts v)]) values))
    /\ Z.of_nat (length values) = total_unique
    /\ Z.of_nat (length (filter (fun v => 0 < get0 imdb_counts v) values))
       = imdb_unique
    /\ Z.of_nat (length (filter (fun v => 0 < get0 omdb_counts v) values))
       = omdb_unique
    /\ Forall (fun v => 1 <= get0 imdb_counts v + get0 omdb_counts v) values.
Proof.
  intros Hi Ho.
  destruct (tallies_score_total imdb_counts omdb_counts) as [score Hs].
  pose proof (tally_counts_positive _ _ _ Hi) as Hpi.
  pose proof (tally_counts_positive _ _ _ Ho) as Hpo.
  exists (len imdb_counts), (len omdb_counts),
         (len_set (dom imdb_counts ∪ dom omdb_counts)), score.
  eexists. exists (elements (dom imdb_counts ∪ dom omdb_counts)).
  split; [by apply analyze_column_present|]. simpl.
  split; [apply lookup_insert_eq|].
  split; [reflexivity|].
  split; [|split].
  - rewrite len_dom. unfold len_set. f_equal.
    apply length_filter_elements; [|apply union_subseteq_l].
    intros v _. by apply get0_positive_iff.
  - rewrite len_dom. unfold len_set. f_equal.
    apply length_filter_elements; [|apply union_subseteq_r].
    intros v _. by apply get0_positive_iff.
  - apply Forall_forall. intros v Hv.
    apply elem_of_elements, elem_of_union in Hv.
    pose proof (get0_positive_iff imdb_counts v Hpi) as Hgi.
    pose proof (get0_positive_iff omdb_counts v Hpo) as Hgo.
    assert (0 <= get0 imdb_counts v) by (unfold get0; lia).
    assert (0 <= get0 omdb_counts v) by (unfold get0; lia).
    destruct Hv as [Hv|Hv]; [apply Hgi in Hv|apply Hgo in Hv]; lia.
Qed.

(** ** More on the ranking driver *)

Lemma collect_sublist (imdb_df omdb_df : DataFrame) (cols : list string) :
  forall (acc l : list candidate) (w w' : World),
    collect imdb_df omdb_df cols acc w = (Ok l, w') ->
    exists l', l = (acc ++ l')%list /\ map cand_column l' `sublist_of` cols.
Proof.
  induction cols as [|column rest IH]; intros acc l w w' Hc; simpl in Hc.
  - injection Hc as <- _. exists []. by rewrite app_nil_r.
  - unfold bind in Hc at 1.
    destruct (analyze_column imdb_df omdb_df column w) as [[res|e] w1];
      [|discriminate].
    destruct res as [[[a b] u] s].
    destruct ((1 <? a) && (1 <? b))%bool.
    + apply IH in Hc as (l' & -> & Hsub).
      exists ((column, a, b, u, s) :: l'). rewrite <- app_assoc. split; [done|].
      simpl. by apply sublist_skip.
    + apply IH in Hc as (l' & -> & Hsub).
      exists l'. split; [done|]. by apply sublist_cons.
Qed.

(** X11. The driver ranks only columns it was given, each at most as often
    as it was given: the collected entries carry a sublist of the column
    list, in its order, and the ranking is a reordering of them; so it has
    at most as many entries as there are columns. *)
Theorem ranking_within_column_list (imdb_df omdb_df : DataFrame)
    (cols : list string) (w : World) :
  exists (collected ranked : list candidate) (w1 w' : World),
    collect imdb_df omdb_df cols [] w = (Ok collected, w1)
    /\ rank imdb_df omdb_df cols w = (Ok ranked, w')
    /\ map cand_column collected `sublist_of` cols
    /\ Permutation collected ranked
    /\ (length ranked <= length cols)%nat
    /\ Forall (fun x => cand_column x ∈ cols) ranked.
Proof.
  destruct (rank_keeps imdb_df omdb_df cols w)
    as (l & ranked & w1 & w' & Hc & Hr & -> & _).
  destruct (collect_sublist _ _ _ _ _ _ _ Hc) as (l' & Hl & Hsub).
  simpl in Hl. subst l'.
  exists l, (sort_desc l), w1, w'.
  split; [done|]. split; [done|]. split; [done|].
  split; [apply sort_desc_perm|]. split.
  - rewrite <- (Permutation_length (sort_desc_perm l)).
    rewrite <- (length_map cand_column). by apply sublist_length.
  - eapply Permutation_Forall; [apply sort_desc_perm|].
    apply Forall_forall. intros x Hx.
    apply (sublist_subseteq _ _ Hsub).
    apply list_elem_of_fmap. by exists x.
Qed.

Lemma py_lt_strict (a b : pynum) :
  py_lt a b = true -> (num_val a < num_val b)%Q.
Proof.
  unfold py_lt. intros H. apply negb_true_iff in H.
  apply Qnot_le_lt. intros Hle. apply Qle_bool_iff in Hle. congruence.
Qed.

Lemma insert_desc_with_score (q : Q) (x : candidate) (l : list candidate) :
  with_score q (insert_desc x l) = with_score q (x :: l).
Proof.
  unfold with_score.
  induction l as [|y l IH]; [done|]. simpl.
  destruct (py_lt (cand_score x) (cand_score y)) eqn:Hlt; [|done].
  simpl. rewrite IH. simpl.
  destruct (Qeq_bool (num_val (cand_score x)) q) eqn:Hx; [|done].
  destruct (Qeq_bool (num_val (cand_score y)) q) eqn:Hy; [|done].
  apply Qeq_bool_iff in Hx, Hy. apply py_lt_strict in Hlt.
  rewrite Hx, Hy in Hlt. by apply Qlt_irrefl in Hlt.
Qed.

Lemma sort_desc_with_score (q : Q) (l : list candidate) :
  with_score q (sort_desc l) = with_score q l.
Proof.
  induction l as [|x l IH]; [done|]. simpl.
  rewrite insert_desc_with_score. unfold with_score in *. simpl.
  by rewrite IH.
Qed.

(** X12. The sort is stable: the entries that share a score stand in the
    ranking in the order in which the loop collected them, which is the
    order of the column list. *)
Theorem ranking_keeps_order_of_ties (imdb_df omdb_df : DataFrame)
    (cols : list string) (w : World) :
  exists (collected ranked : list candidate) (w1 w' : World),
    collect imdb_df omdb_df cols [] w = (Ok collected, w1)
    /\ rank imdb_df omdb_df cols w = (Ok ranked, w')
    /\ forall q : Q, with_score q ranked = with_score q collected.
Proof.
  destruct (rank_keeps imdb_df omdb_df cols w)
    as (l & ranked & w1 & w' & Hc & Hr & -> & _).
  exists l, (sort_desc l), w1, w'. split; [done|]. split; [done|].
  intros q. apply sort_desc_with_score.
Qed.

(** The analyzer changes no file but the report of its column. *)
Lemma analyze_column_files (imdb_df omdb_df : DataFrame) (column : string)
    (w : World) :
  files (snd (analyze_column imdb_df omdb_df column w)) = files w
  \/ exists f,
       files (snd (analyze_column imdb_df omdb_df column w))
       = <[report_name column := f]> (files w).
Proof.
  destruct (decide (column ∈ columns imdb_df)) as [Hi|Hi];
    [destruct (decide (capitalize column ∈ columns omdb_df)) as [Ho|Ho]|].
  - right. unfold analyze_column.
    rewrite (proj2 (has_column_true _ _) Hi), (proj2 (has_column_true _ _) Ho).
    simpl andb. cbv iota.
    rewrite (count_occurrences_present _ _ Hi),
            (count_occurrences_present _ _ Ho).
    unfold bind at 1. unfold print at 1. simpl.
    unfold bind at 1. unfold lift at 1.
    unfold bind at 1. unfold lift at 1.
    unfold bind at 1. rewrite write_counts_to_csv_effect.
    match goal with
    | |- context [calculate_m_to_n_score ?a ?b ?u] =>
        destruct (calculate_m_to_n_score a b u) as [score|e]
    end; unfold bind, print, lift, ret; simpl; by eexists.
  - left. rewrite analyze_column_missing by (by right). done.
  - left. rewrite analyze_column_missing by (by left). done.
Qed.

Lemma analyze_column_frame (imdb_df omdb_df : DataFrame) (column : string)
    (w : World) (name : string) :
  name <> report_name column ->
  files (snd (analyze_column imdb_df omdb_df column w)) !! name
  = files w !! name.
Proof.
  intros Hne.
  destruct (analyze_column_files imdb_df omdb_df column w) as [->|[f ->]];
    [done|]. by rewrite lookup_insert_ne.
Qed.

Lemma collect_frame (imdb_df omdb_df : DataFrame) (cols : list string)
    (name : string) :
  Forall (fun c => name <> report_name c) cols ->
  forall (acc : list candidate) (w : World),
    files (snd (collect imdb_df omdb_df cols acc w)) !! name = files w !! name.
Proof.
  induction 1 as [|column rest Hne Hrest IH]; intros acc w; simpl; [done|].
  unfold bind at 1.
  pose proof (analyze_column_frame imdb_df omdb_df column w name Hne) as Hf.
  destruct (analyze_column imdb_df omdb_df column w) as [[res|e] w1];
    simpl in *; [|done].
  destruct res as [[[a b] u] s].
  destruct ((1 <? a) && (1 <? b))%bool; by rewrite IH.
Qed.

Lemma rank_files (imdb_df omdb_df : DataFrame) (cols : list string)
    (w : World) :
  files (snd (rank imdb_df omdb_df cols w))
  = files (snd (collect imdb_df omdb_df cols [] w)).
Proof.
  unfold rank. unfold bind at 1.
  destruct (collect imdb_df omdb_df cols [] w) as [[l|e] w1]; [|done].
  unfold bind at 1. unfold print at 1.
  unfold bind at 1.
  match goal with
  | |- context [for_each ?xs ?body ?w0] =>
      destruct (for_each_prints body xs) with (w := w0) as [ms ->]
  end; [|done].
  intros [[[[c a] b] u] sc] w0. by eexists.
Qed.

(** X13. A run of the driver changes no file but the reports of the columns
    it was given; in particular a file under any other name, an input file
    for one, is after the ranking what it was before. *)
Theorem ranking_changes_only_reports (imdb_df omdb_df : DataFrame)
    (cols : list string) (w : World) (name : string) :
  Forall (fun c => name <> report_name c) cols ->
  files (snd (rank imdb_df omdb_df cols w)) !! name = files w !! name.
Proof.
  intros Hname. rewrite rank_files. by apply collect_frame.
Qed.

Lemma main_files (w : World) :
  files (snd (main w)) = files w
  \/ exists (imdb_df omdb_df : DataFrame) (w2 : World),
       files w2 = files w
       /\ files (snd (main w))
          = files (snd (rank imdb_df omdb_df potential_join_columns w2)).
Proof.
  unfold main, bind.
  pose proof (reader_keeps_files_aux "imdb.csv" w) as H1.
  destruct (read_csv_with_encoding "imdb.csv" w) as [[imdb_df|e] w1];
    simpl in H1; [|by left].
  pose proof (reader_keeps_files_aux "omdb.csv" w1) as H2.
  destruct (read_csv_with_encoding "omdb.csv" w1) as [[omdb_df|e] w2];
    simpl in H2; [|left; simpl; congruence].
  right. exists imdb_df, omdb_df, w2. split; [congruence|].
  destruct (rank imdb_df omdb_df potential_join_columns w2) as [[l|e] w3];
    by simpl.
Qed.

(** X14. The script never changes its input files, nor any file that is not
    one of the six reports, whether it runs to its end or stops on an
    error. *)
Theorem main_changes_only_reports (w : World) (name : string) :
  Forall (fun c => name <> report_name c) potential_join_columns ->
  files (snd (main w)) !! name = files w !! name.
Proof.
  intros Hname.
  destruct (main_files w) as [->|(imdb_df & omdb_df & w2 & H2 & ->)]; [done|].
  rewrite rank_files, collect_frame by done. by rewrite H2.
Qed.

(** X15. An input that cannot be read stops the script before any report is
    written: the error of the reader is the error of the script, and the
    files are left as they were. *)
Theorem main_aborts_on_unreadable_input (w : World) (e : exn) :
  fst (read_csv_with_encoding "imdb.csv" w) = Raise e
  \/ (exists imdb_df : DataFrame,
        fst (read_csv_with_encoding "imdb.csv" w) = Ok imdb_df
        /\ fst (read_csv_with_encoding "omdb.csv"
                  (snd (read_csv_with_encoding "imdb.csv" w))) = Raise e) ->
  fst (main w) = Raise e /\ files (snd (main w)) = files w.
Proof.
  unfold main, bind.
  pose proof (reader_keeps_files_aux "imdb.csv" w) as H1.
  destruct (read_csv_with_encoding "imdb.csv" w) as [[imdb_df|e1] w1];
    simpl in *.
  - intros [Hr|(df & _ & Hr)]; [discriminate|].
    pose proof (reader_keeps_files_aux "omdb.csv" w1) as H2.
    destruct (read_csv_with_encoding "omdb.csv" w1) as [[omdb_df|e2] w2];
      simpl in *; [discriminate|].
    injection Hr as ->. split; [done|congruence].
  - intros [Hr|(df & Hr & _)]; [|discriminate]. injection Hr as ->. by split.
Qed.

(** ** More on the scorer *)

(** 0 is a binary64 value: a quotient equal to 0 rounds to 0. *)
Hypothesis to_float_zero :
  forall q : Q, (q == 0)%Q -> exists x, to_float q = Some x /\ (x == 0)%Q.

(** X16. Two non-empty key sets without a common value score the float 0:
    the overlap computed from the three lengths is 0. *)
Theorem score_zero_on_disjoint (A B : gset string) :
  A ## B -> A <> ∅ -> B <> ∅ ->
  exists x,
    calculate_m_to_n_score (len_set A) (len_set B) (len_set (A ∪ B))
      = Ok (PyFloat x)
    /\ (x == 0)%Q.
Proof.
  intros Hdisj HA HB.
  pose proof (len_set_pos A HA) as HpA. pose proof (len_set_pos B HB) as HpB.
  assert (Hne : Z.min (len_set A) (len_set B) <> 0) by lia.
  rewrite score_divides by exact Hne.
  assert (Ho : len_set A + len_set B - len_set (A ∪ B) = 0).
  { unfold len_set. rewrite (size_union A B Hdisj). lia. }
  rewrite Ho.
  assert (Hq : (inject_Z 0 / inject_Z (Z.min (len_set A) (len_set B)) == 0)%Q).
  { unfold Qdiv. apply Qmult_0_l. }
  destruct (to_float_zero _ Hq) as (x & Hx & Hx0).
  exists x. rewrite Hx. auto.
Qed.

(** ** The end of the script *)


End Pipeline.

(** * The statements at the sample data *)

Lemma exact_float_unit (q : Q) :
  (0 <= q)%Q -> (q <= 1)%Q ->
  exists x, exact_float q = Some x /\ (0 <= x)%Q /\ (x <= 1)%Q.
Proof. intros H0 H1. by exists q. Qed.

Lemma exact_float_one (q : Q) :
  (q == 1)%Q -> exists x, exact_float q = Some x /\ (x == 1)%Q.
Proof. intros H1. by exists q. Qed.

Lemma sample_lacks_title :
  "title" ∉ columns sample_imdb \/ capitalize "title" ∉ columns sample_omdb.
Proof.
  left. intros H. simpl in H.
  repeat (apply elem_of_cons in H as [H|H]; [discriminate H|]).
  by apply elem_of_nil in H.
Qed.

(** C1 at the key sets of the sample genre columns. *)
Lemma score_in_unit_interval_witness :
  exists score,
    calculate_m_to_n_score exact_float
      (len_set {[ "Drama"; "Comedy" ]}) (len_set {[ "Drama"; "Horror" ]})
      (len_set ({[ "Drama"; "Comedy" ]} ∪ {[ "Drama"; "Horror" ]})) = Ok score
    /\ (0 <= num_val score)%Q /\ (num_val score <= 1)%Q.
Proof.
  exact (score_in_unit_interval exact_float exact_float_unit
           {[ "Drama"; "Comedy" ]} {[ "Drama"; "Horror" ]}).
Defined.

(** C2 as stated fails at an empty key set: it is contained in every set,
    and the scorer answers the int 0 there, whatever the rounding. *)
Lemma containment_of_empty_scores_zero :
  ((∅ : gset string) ⊆ {[ "Drama" ]} \/ {[ "Drama" ]} ⊆ (∅ : gset string))
  /\ (forall to_float : Q -> option Q,
        calculate_m_to_n_score to_float
          (len_set ∅) (len_set {[ "Drama" ]}) (len_set (∅ ∪ {[ "Drama" ]}))
        = Ok (PyInt 0))
  /\ ~ (num_val (PyInt 0) == 1)%Q.
Proof.
  split; [left; apply empty_subseteq|]. split.
  - intros to_float. apply score_zero_on_empty_tally. by left.
  - discriminate.
Qed.

(** C2 (amended) at a one-value set inside a two-value set. *)
Lemma score_one_on_containment_witness :
  exists x,
    calculate_m_to_n_score exact_float
      (len_set {[ "Drama" ]}) (len_set {[ "Drama"; "Comedy" ]})
      (len_set ({[ "Drama" ]} ∪ {[ "Drama"; "Comedy" ]})) = Ok (PyFloat x)
    /\ (x == 1)%Q.
Proof.
  apply (score_one_on_containment exact_float exact_float_one).
  - apply non_empty_singleton_L.
  - intros H. apply (not_elem_of_empty (C := gset string) "Drama").
    rewrite <- H. apply elem_of_union_l. by apply elem_of_singleton.
  - left. apply union_subseteq_l.
Defined.

(** C3 with one side empty, under a rounding that never answers. *)
Lemma score_zero_when_min_zero_witness :
  calculate_m_to_n_score no_float 0 5 3 = Ok (PyInt 0)
  /\ true_div no_float (0 + 5 - 3) (Z.min 0 5) = Raise ZeroDivisionError.
Proof. exact (score_zero_when_min_zero no_float 0 5 3 eq_refl). Defined.

(** C4: ascii and utf-8 fail on the sample file, iso-8859-1 parses it. *)
Lemma reader_first_success_in_order_witness :
  fst (read_csv_with_encoding sample_detect sample_read_csv sample_csv_bytes
         "imdb.csv" sample_world) = Ok sample_imdb.
Proof.
  apply (reader_first_success_in_order sample_detect sample_read_csv
           sample_csv_bytes "imdb.csv" (Binary [Byte.x74; Byte.xe9])
           sample_world eq_refl).
  exists [Some "ascii"; Some "utf-8"], (Some "iso-8859-1"),
         [Some "windows-1252"; Some "latin1"].
  split; [reflexivity|]. split; [|reflexivity].
  repeat constructor; by exists UnicodeDecodeError.
Defined.

(** C5: the cell Action,Drama counts once for Action and once for Drama and
    not at all as a whole; the missing cell counts for nan. *)
Lemma count_occurrences_splits_cells_witness :
  exists counts,
    count_occurrences sample_cells "genre" = Ok counts
    /\ get0 counts "Action" = 1 /\ get0 counts "Drama" = 1
    /\ get0 counts "Action,Drama" = 0 /\ get0 counts "nan" = 1.
Proof.
  destruct (count_occurrences_splits_cells sample_cells "genre")
    as (counts & Hc & Hget & _).
  - apply list_elem_of_here.
  - exists counts. split; [exact Hc|].
    rewrite !Hget. by vm_compute.
Defined.

(** C6: the analyzer's file effect on the sample genre column. *)
Lemma comparison_file_one_record_per_value_witness :
  files (snd (analyze_column exact_float sample_imdb sample_omdb "genre"
                sample_world)) =
  files (snd (write_counts_to_csv
                (Counter ["Drama"; "Comedy"])
                (Counter ["Drama"; "Horror"; "Horror"])
                "genre_counts.csv" "Genre" sample_world)).
Proof.
  apply (proj2 (comparison_file_one_record_per_value exact_float
                  exact_float_unit)
           sample_imdb sample_omdb "genre"); by vm_compute.
Defined.

(** C7 on the sample tables and the script's column list. *)
Lemma only_informative_columns_ranked_witness :
  exists (ranked : list candidate) (w' : World),
    rank exact_float sample_imdb sample_omdb potential_join_columns
      sample_world = (Ok ranked, w')
    /\ Forall (fun x =>
           analysed exact_float sample_imdb sample_omdb x
           /\ 1 < cand_imdb_unique x /\ 1 < cand_omdb_unique x)
         ranked.
Proof.
  exact (proj2 (only_informative_columns_ranked exact_float exact_float_unit
                  sample_imdb sample_omdb potential_join_columns)
           sample_world).
Defined.

(** C8 on the sample tables: year scores 1 and comes before genre. *)
Lemma ranking_sorted_descending_witness :
  exists (collected ranked : list candidate) (w1 w' : World),
    collect exact_float sample_imdb sample_omdb potential_join_columns []
      sample_world = (Ok collected, w1)
    /\ rank exact_float sample_imdb sample_omdb potential_join_columns
         sample_world = (Ok ranked, w')
    /\ Permutation collected ranked
    /\ forall (i : nat) (x y : candidate),
         ranked !! i = Some x -> ranked !! S i = Some y ->
         (num_val (cand_score y) <= num_val (cand_score x))%Q.
Proof.
  exact (ranking_sorted_descending exact_float exact_float_unit
           sample_imdb sample_omdb potential_join_columns sample_world).
Defined.

(** C9: the sample tables have no title column. *)
Lemma missing_column_zero_and_unranked_witness :
  (forall w : World,
     fst (analyze_column exact_float sample_imdb sample_omdb "title" w)
     = Ok (0, 0, 0, PyInt 0))
  /\ (forall (cols : list string) (w : World),
        exists (ranked : list candidate) (w' : World),
          rank exact_float sample_imdb sample_omdb cols w = (Ok ranked, w')
          /\ Forall (fun x => cand_column x <> "title") ranked).
Proof.
  exact (missing_column_zero_and_unranked exact_float exact_float_unit
           sample_imdb sample_omdb "title" sample_lacks_title).
Defined.

(** C10: analysing the missing title column leaves the files alone. *)
Lemma missing_column_writes_no_file_witness :
  exists w' : World,
    analyze_column exact_float sample_imdb sample_omdb "title" sample_world
      = (Ok (0, 0, 0, PyInt 0), w')
    /\ files w' = files sample_world
    /\ files w' !! ("title" ++ "_counts.csv")
       = files sample_world !! ("title" ++ "_counts.csv")
    /\ console w' =
         (console sample_world ++
          [MsgAnalyzing "title"; MsgColumnNotFound "title"])%list.
Proof.
  exact (missing_column_writes_no_file exact_float sample_imdb sample_omdb
           "title" sample_world sample_lacks_title).
Defined.


(** The genre scenario of the specification: the tallies Drama 1, Comedy 1
    and Drama 2, Comedy 1 give the counts 2, 2, 2 and the score 1. *)
Example genre_scenario :
  fst (analyze_column exact_float
         (mkDataFrame ["genre"]
            [ {[ "genre" := "Drama" ]}; {[ "genre" := "Comedy" ]} ])
         (mkDataFrame ["Genre"]
            [ {[ "Genre" := "Drama" ]}; {[ "Genre" := "Drama,Comedy" ]} ])
         "genre" (mkWorld ∅ []))
  = Ok (2, 2, 2, PyFloat (2 # 2)).
Proof. by vm_compute. Qed.

(** X4 on the sample world, which has no file of this name. *)
Lemma reader_missing_file_witness :
  read_csv_with_encoding sample_detect sample_read_csv sample_csv_bytes
    "movies.csv" sample_world
  = (Raise (FileNotFoundError "movies.csv"), sample_world).
Proof.
  exact (reader_missing_file sample_detect sample_read_csv sample_csv_bytes
           "movies.csv" sample_world eq_refl).
Defined.

(** X5 on the sample world: two failure lines, then the success line. *)
Lemma reader_prints_one_line_per_attempt_witness :
  console (snd (read_csv_with_encoding sample_detect sample_read_csv
                  sample_csv_bytes "imdb.csv" sample_world))
  = [MsgReadDecodeFailed (Some "ascii"); MsgReadDecodeFailed (Some "utf-8");
     MsgReadOk (Some "iso-8859-1")].
Proof.
  apply (proj1 (reader_prints_one_line_per_attempt sample_detect
                  sample_read_csv sample_csv_bytes "imdb.csv"
                  (Binary [Byte.x74; Byte.xe9]) sample_world eq_refl)
           [Some "ascii"; Some "utf-8"] (Some "iso-8859-1")
           [Some "windows-1252"; Some "latin1"] sample_imdb).
  - reflexivity.
  - repeat constructor; by exists UnicodeDecodeError.
  - reflexivity.
Defined.

(** X6 on the sample cells: two rows and one comma make three pieces. *)
Lemma tally_total_rows_plus_commas_witness :
  tally_total (Counter ["Action"; "Drama"; "nan"]) = (2 + (1 + (0 + 0)))%nat.
Proof.
  apply (tally_total_rows_plus_commas sample_cells "genre"
           (Counter ["Action"; "Drama"; "nan"])).
  by vm_compute.
Defined.

(** X7 on the sample cells. *)
Lemma tally_positive_and_nonempty_witness :
  (forall v n, Counter ["Action"; "Drama"; "nan"] !! v = Some n -> (1 <= n)%nat)
  /\ (Counter ["Action"; "Drama"; "nan"] = ∅ <-> rows sample_cells = []).
Proof.
  apply (tally_positive_and_nonempty sample_cells "genre"
           (Counter ["Action"; "Drama"; "nan"])).
  by vm_compute.
Defined.


(** X10 on the sample tables and the genre column. *)
Lemma report_agrees_with_answer_witness :
  exists (imdb_unique omdb_unique total_unique : Z) (score : pynum)
         (w' : World) (values : list string),
    analyze_column exact_float sample_imdb sample_omdb "genre" sample_world
      = (Ok (imdb_unique, omdb_unique, total_unique, score), w')
    /\ files w' !! ("genre" ++ "_counts.csv") =
         Some (CsvFile
           ([FStr (capitalize "genre"); FStr "IMDB Count"; FStr "OMDB Count"] ::
            map (fun v => [FStr v;
                           FInt (get0 (Counter ["Drama"; "Comedy"]) v);
                           FInt (get0 (Counter ["Drama"; "Horror"; "Horror"]) v)])
              values))
    /\ Z.of_nat (length values) = total_unique
    /\ Z.of_nat (length (filter
                           (fun v => 0 < get0 (Counter ["Drama"; "Comedy"]) v)
                           values))
       = imdb_unique
    /\ Z.of_nat (length (filter
                           (fun v => 0 < get0
                                      (Counter ["Drama"; "Horror"; "Horror"]) v)
                           values))
       = omdb_unique
    /\ Forall (fun v => 1 <= get0 (Counter ["Drama"; "Comedy"]) v
                          + get0 (Counter ["Drama"; "Horror"; "Horror"]) v)
         values.
Proof.
  apply (report_agrees_with_answer exact_float exact_float_unit
           sample_imdb sample_omdb "genre"); by vm_compute.
Defined.

Lemma exact_float_zero (q : Q) :
  (q == 0)%Q -> exists x, exact_float q = Some x /\ (x == 0)%Q.
Proof. intros H0. by exists q. Qed.

Lemma imdb_is_no_report :
  Forall (fun c => "imdb.csv" <> report_name c) potential_join_columns.
Proof. repeat constructor; discriminate. Qed.

(** X11 on the sample tables and the script's column list. *)
Lemma ranking_within_column_list_witness :
  exists (collected ranked : list candidate) (w1 w' : World),
    collect exact_float sample_imdb sample_omdb potential_join_columns []
      sample_world = (Ok collected, w1)
    /\ rank exact_float sample_imdb sample_omdb potential_join_columns
         sample_world = (Ok ranked, w')
    /\ map cand_column collected `sublist_of` potential_join_columns
    /\ Permutation collected ranked
    /\ (length ranked <= length potential_join_columns)%nat
    /\ Forall (fun x => cand_column x ∈ potential_join_columns) ranked.
Proof.
  exact (ranking_within_column_list exact_float exact_float_unit
           sample_imdb sample_omdb potential_join_columns sample_world).
Defined.

(** X12 on the sample tables and the script's column list. *)
Lemma ranking_keeps_order_of_ties_witness :
  exists (collected ranked : list candidate) (w1 w' : World),
    collect exact_float sample_imdb sample_omdb potential_join_columns []
      sample_world = (Ok collected, w1)
    /\ rank exact_float sample_imdb sample_omdb potential_join_columns
         sample_world = (Ok ranked, w')
    /\ forall q : Q, with_score q ranked = with_score q collected.
Proof.
  exact (ranking_keeps_order_of_ties exact_float exact_float_unit
           sample_imdb sample_omdb potential_join_columns sample_world).
Defined.

(** X13: ranking the sample tables leaves imdb.csv as it was. *)
Lemma ranking_changes_only_reports_witness :
  files (snd (rank exact_float sample_imdb sample_omdb potential_join_columns
                sample_world)) !! "imdb.csv"
  = files sample_world !! "imdb.csv".
Proof.
  exact (ranking_changes_only_reports exact_float sample_imdb sample_omdb
           potential_join_columns sample_world "imdb.csv" imdb_is_no_report).
Defined.

(** X14: the script on the sample world leaves imdb.csv as it was. *)
Lemma main_changes_only_reports_witness :
  files (snd (main exact_float sample_detect sample_read_csv sample_csv_bytes
                sample_world)) !! "imdb.csv"
  = files sample_world !! "imdb.csv".
Proof.
  exact (main_changes_only_reports exact_float sample_detect sample_read_csv
           sample_csv_bytes sample_world "imdb.csv" imdb_is_no_report).
Defined.

(** X15: without omdb.csv the script stops with the reader's error and
    writes no report. *)
Lemma main_aborts_on_unreadable_input_witness :
  fst (main exact_float sample_detect sample_read_csv sample_csv_bytes
         sample_world_imdb_only) = Raise (FileNotFoundError "omdb.csv")
  /\ files (snd (main exact_float sample_detect sample_read_csv
                   sample_csv_bytes sample_world_imdb_only))
     = files sample_world_imdb_only.
Proof.
  apply (main_aborts_on_unreadable_input exact_float sample_detect
           sample_read_csv sample_csv_bytes sample_world_imdb_only).
  right. exists sample_imdb. split; by vm_compute.
Defined.

(** X16 at two disjoint one-value sets. *)
Lemma score_zero_on_disjoint_witness :
  exists x,
    calculate_m_to_n_score exact_float
      (len_set {[ "Drama" ]}) (len_set {[ "Horror" ]})
      (len_set ({[ "Drama" ]} ∪ {[ "Horror" ]})) = Ok (PyFloat x)
    /\ (x == 0)%Q.
Proof.
  apply (score_zero_on_disjoint exact_float exact_float_zero).
  - apply disjoint_singleton_l. intros H.
    apply elem_of_singleton in H. discriminate H.
  - apply non_empty_singleton_L.
  - apply non_empty_singleton_L.
Defined.

